(* ===== verification/_CoqProject ===== *)
-Q . S2P
Prelude.v
GoContext.v
Utf8.v
JsonEncode.v
JsonDecode.v
Quote.v
Store.v
Sqlite.v
Server.v
Client.v
System.v
Witnesses.v
