(* ===== verification/Prelude.v ===== *)
(** * A verification development of Desafio-Client-Server-API

  ** The program
  Two Go programs (src/server/main.go, src/client/main.go) exchange a
  USD/BRL quote.  The server's handler [cotacao] derives a 210 ms
  deadline context, calls the upstream API ([AcessoApiCotacao], which
  checks the deadline and calls [GetApiCotacao]: [http.Get],
  [io.ReadAll], [json.Unmarshal] into [CotacaoUSDBRL]), persists the
  quote in SQLite ([GravarDados], which checks the deadline again and
  runs [createTable] and [insertCotacao]), and answers the bid with
  [json.NewEncoder(w).Encode].  The client makes one request under a
  300 ms deadline, checks the deadline once the response is there,
  and writes [Dólar: <body>] to [cotacao.txt].

  ** The library (files in dependency order)
  - [Prelude] (this file): bytes as [list byte], the state monad with
    Go's halting ([panic], [os.Exit]) used for every stateful Go
    function, its notation (scope [go_scope]), the hint databases
    [go_model] and [go_rw].
  - [GoContext]: [context.WithTimeout] as an absolute deadline, the
    non-blocking [select] on [ctx.Done()] over any state with a clock
    (class [HasClock]); the two budgets 210 and 300 ms.
  - [Utf8]: [utf8.DecodeRune] (Go's [first]/[acceptRanges] tables)
    and [utf8.EncodeRune]; Go's [[]rune(s)] and [string(rs)]
    conversions and [utf8.Valid], the vocabulary of the round trips.
  - [JsonEncode]: [appendString] of [encoding/json] as written (the
    [i]/[start] loop) and [Encode]'s newline; a rune-by-rune reference
    [quote_ref] and their equivalence.
  - [JsonDecode]: the JSON value, the scanner's grammar with the
    nesting limit of 10000, and [unquote] (invalid UTF-8 and lone
    surrogates become U+FFFD), as the [parse] that [Unmarshal] runs;
    its module [JsonRoundtrip] reads the encoder's output back.
  - [Quote]: [CotacaoUSDBRL], its eleven tagged string fields, [Cot],
    and the decoding of a JSON value into the struct (case-folded key
    matching, [null] ignored, type errors recorded, last key wins).
  - [Store]: the class [SqlStore] of what the persistence code needs
    from the engine, and its contract [SqlStoreLaws] (idempotent
    creation, append-only inserts); the server is verified against
    this interface.
  - [Sqlite]: the table [cotacao] with [AUTOINCREMENT] on a signed
    64-bit rowid, its invariant, and the instance of the contract.
  - [Server]: the handler and its callees over a world of clock,
    store, standard error and [http.ResponseWriter]; [serve] turns a
    handler run into what the client receives (net/http recovers a
    panic by closing the connection; [log.Fatal] ends the process);
    the process as a step relation over requests.
  - [Client]: [main] over a world of clock, file system and standard
    error.
  - [System]: one client run against one served request through the
    network; the SQLite store.
  - [Witnesses]: every theorem with hypotheses applied at a concrete
    input.

  ** What is proved
  - Server (C1-C7): the answer and the store effect of a request in
    each case of its timing and the upstream's behaviour (success;
    upstream slower than the deadline; deadline expired before the
    fetch; transport error; refused insert); at most one row per
    request whatever happens, by a graded composition [Grows] over an
    inductive [evolve] of CREATE and INSERT steps; the store is
    append-only over every sequence of requests.
  - Client (C8-C10): the file written, whatever the status; no file
    when the deadline has passed at the check; panic without a
    response.
  - System (C11-C15): the quote travels from the upstream body to
    [cotacao.txt]; the specification's example; the 408 text written
    as the quote; the SQLite invariant in every reachable state; two
    requests give rows 1 and 2.
  - JSON (C16-C17): a safe bid is encoded between quotes with a
    newline; the optimised loop equals the reference.
  - SQLite (C18-C19): identifiers are fresh; the insert fails exactly
    when the 64-bit sequence is exhausted.
  - Decoding (C20-C21): a body without a [USDBRL] key yields the zero
    quote and no error; each field gets the last string given for it.
  - UTF-8 and JSON round trips (C22-C23): [EncodeRune] and
    [DecodeRune] are inverse on scalar values and well-formed
    sequences; the server's encoding of a valid UTF-8 bid decodes
    back to that bid.

  ** Time, bounds, fuel
  Time is a millisecond clock [Z]; local computation takes no time;
  the outside world supplies the scheduling delays and latencies
  ([Server.request_env], [Client.client_env]), so every timing is a
  hypothesis of the theorems.  A deadline is observed expired exactly
  when the clock has reached it.  [append_loop] runs on fuel
  [length src], enough since every iteration advances [i]
  ([append_loop_spec] needs exactly that).  [parse] runs on fuel
  [2 * length data + 2]: every second call of the parser consumes a
  byte; each string on [length r + 1] for the [r] bytes after its
  quote.  What the model returns when fuel runs out is an argument of
  the parser, and the lemma [JsonDecode.parse_fuel_enough] proves the
  result independent of it: the bounds are never reached, so the
  fuel is an artefact of the model and not a behaviour of the code.

  ** Not modelled
  The network stack and HTTP framing (a response is status, headers
  and body); the text of log lines (an enumeration names them); the
  HTTP client's redirects and keep-alive; [Content-Type] sniffing;
  SQL parsing (the two statements are given their meaning directly);
  the failure of [http.ListenAndServe] itself (its error is ignored).

  ** Plan for the next steps
  1. Concurrency: the SQL statements of two handlers interleaved as a
     step relation on the shared store; two concurrent requests give
     two rows with distinct increasing identifiers, and table creation
     is idempotent under any interleaving.
  2. The upstream payload: a printer for the [USDBRL] shape and the
     decoding of every well-formed payload to its quote; the key
     folding of [foldName]; the client's error paths in full.
  3. An abstract contract of the handler (answer 200 with the bid,
     408, or no answer; store append-only) and the refinement of
     [Server.cotacao] against it for every input. *)

From stdpp Require Export base list gmap strings.
From Stdlib Require Export Strings.Byte ZArith Lia.

(** ** Bytes: Go's [string] and [[]byte] *)

(** A Go [string] or [[]byte] is a sequence of bytes; the development
  uses [list byte] for both. *)
Abbreviation bytes := (list byte).

#[export] Instance byte_eq_decision : EqDecision byte := byte_eq_dec.

#[export] Program Instance byte_countable : Countable byte :=
{| encode b := encode (Byte.to_N b);
   decode p := decode p ≫= Byte.of_N |}.
Next Obligation. intros b. simpl. rewrite (decode_encode (Byte.to_N b)). simpl. apply Byte.of_to_N. Qed.

(** String literals of the source, as UTF-8 bytes. *)
Definition bs (s : string) : bytes := String.list_byte_of_string s.

(** A JSON string literal: the text between double quotes. *)
Definition quoted (s : string) : bytes := [x22] ++ bs s ++ [x22].

(** The unsigned value of a byte. *)
Definition bval (b : byte) : N := Byte.to_N b.

(** The byte of a value below 256 (the callers only pass such values). *)
Definition byte_of (n : N) : byte :=
match Byte.of_N n with Some b => b | None => x00 end.

Lemma bval_lt_256 b : (bval b < 256)%N.
Proof. destruct b; vm_compute; reflexivity. Qed.

Lemma byte_of_bval b : byte_of (bval b) = b.
Proof. unfold byte_of, bval. by rewrite Byte.of_to_N. Qed.

Lemma bval_byte_of n : (n < 256)%N -> bval (byte_of n) = n.
Proof.
intros Hn. unfold byte_of, bval.
destruct (Byte.of_N n) as [b|] eqn:E.
- by apply Byte.to_of_N.
- apply Byte.of_N_None_iff in E. lia.
Qed.

Lemma byte_of_eq n b : n = bval b -> byte_of n = b.
Proof. intros ->. apply byte_of_bval. Qed.

(** ** Bit operations on [N] as arithmetic

  The UTF-8 and JSON code of Go's library packs and unpacks bytes
  with shifts, masks and ors.  These rewrite them to multiplication,
  division and remainder by powers of two, which [nlia] (linear
  arithmetic after eliminating division by constants) decides. *)

Ltac nlia := zify; Z.to_euclidean_division_equations; lia.

(** An or of two values whose bits do not overlap is their sum. *)
Lemma lor_disjoint_add (x y k : N) :
  (x mod 2 ^ k = 0 -> y < 2 ^ k -> N.lor x y = x + y)%N.
Proof.
intros Hx Hy.
assert (N.land x y = 0)%N as H0.
{ apply N.bits_inj_0. intros i.
  rewrite N.land_spec.
  destruct (N.lt_ge_cases i k) as [Hi|Hi].
  - rewrite <- (N.mod_pow2_bits_low x k i Hi), Hx. by rewrite N.bits_0.
  - rewrite <- (N.mod_small y (2 ^ k) Hy), N.mod_pow2_bits_high by lia.
    apply andb_false_r. }
rewrite <- N.lxor_lor by done. symmetry. by apply N.add_nocarry_lxor.
Qed.

(** Masks with [0x3F], [0x1F], [0x0F], [0x07] as remainders. *)
Ltac land_to_mod :=
repeat match goal with
| |- context [N.land ?x ?m] =>
    let k := lazymatch m with 63%N => constr:(6%N) | 31%N => constr:(5%N) | 15%N => constr:(4%N) | 7%N => constr:(3%N) end in
    rewrite (N.land_ones x k : N.land x m = (x mod 2 ^ k)%N)
end.

(** Ors of disjoint bit fields as sums, innermost first. *)
Ltac lor_to_add :=
repeat match goal with
| |- context [N.lor ?x ?y] =>
    lazymatch x with context [N.lor _ _] => fail | _ => idtac end;
    lazymatch y with context [N.lor _ _] => fail | _ => idtac end;
    first [ rewrite (lor_disjoint_add x y 6) by nlia
          | rewrite (lor_disjoint_add x y 12) by nlia
          | rewrite (lor_disjoint_add x y 18) by nlia
          | rewrite (lor_disjoint_add x y 5) by nlia
          | rewrite (lor_disjoint_add x y 4) by nlia
          | rewrite (lor_disjoint_add x y 3) by nlia ]
end.

Ltac bits_to_arith :=
rewrite ?N.shiftl_mul_pow2, ?N.shiftr_div_pow2; land_to_mod; lor_to_add.

(** Boolean comparisons on [N] in hypotheses as propositions. *)
Ltac nbool :=
repeat match goal with
| H : (_ && _) = true |- _ => apply andb_prop in H as [? ?]
| H : negb _ = true |- _ => apply negb_true_iff in H
| H : negb _ = false |- _ => apply negb_false_iff in H
| H : (_ <? _)%N = true |- _ => apply N.ltb_lt in H
| H : (_ <? _)%N = false |- _ => apply N.ltb_ge in H
| H : (_ <=? _)%N = true |- _ => apply N.leb_le in H
| H : (_ <=? _)%N = false |- _ => apply N.leb_gt in H
| H : (_ =? _)%N = true |- _ => apply N.eqb_eq in H
| H : (_ =? _)%N = false |- _ => apply N.eqb_neq in H
end.

(** ** Go's control effects: a state monad with halting

  A Go function that mutates the process state (the clock, the
  database, the standard error stream, the file system) and may stop
  the goroutine abruptly is modelled as a function from a state to a
  result and a new state.  [Panicked] is a Go [panic] that is not
  recovered by the function itself; [Exited c] is [os.Exit c], which
  [log.Fatal] and [log.Fatalln] call with code 1. *)

Inductive halt := Panicked | Exited (code : Z).

Inductive result (A : Type) := Ok (a : A) | Halted (h : halt).
Arguments Ok {A} a.
Arguments Halted {A} h.

Definition prog (S A : Type) : Type := S -> result A * S.

Section Monad.
Context {S : Type}.

Definition ret {A} (a : A) : prog S A := fun s => (Ok a, s).

Definition bind {A B} (c : prog S A) (k : A -> prog S B) : prog S B :=
  fun s => match c s with
           | (Ok a, s') => k a s'
           | (Halted h, s') => (Halted h, s')
           end.

Definition get : prog S S := fun s => (Ok s, s).
Definition put (s : S) : prog S unit := fun _ => (Ok tt, s).
Definition modify (f : S -> S) : prog S unit := fun s => (Ok tt, f s).
Definition stop {A} (h : halt) : prog S A := fun s => (Halted h, s).

Lemma bind_ret_l {A B} (a : A) (k : A -> prog S B) s :
  bind (ret a) k s = k a s.
Proof. reflexivity. Qed.

Lemma bind_assoc {A B C} (c : prog S A) (k1 : A -> prog S B) (k2 : B -> prog S C) s :
  bind (bind c k1) k2 s = bind c (fun a => bind (k1 a) k2) s.
Proof. unfold bind. by destruct (c s) as [[a|h] s']. Qed.

Lemma bind_run {A B} (c : prog S A) (k : A -> prog S B) s a s' :
  c s = (Ok a, s') -> bind c k s = k a s'.
Proof. intros E. unfold bind. by rewrite E. Qed.

Lemma bind_halt {A B} (c : prog S A) (k : A -> prog S B) s h s' :
  c s = (Halted h, s') -> bind c k s = (Halted h, s').
Proof. intros E. unfold bind. by rewrite E. Qed.

Lemma bind_stop {A B} h (k : A -> prog S B) s :
  bind (stop h) k s = (Halted h, s).
Proof. reflexivity. Qed.
End Monad.

Declare Scope go_scope.
Delimit Scope go_scope with go.
Notation "x <- c ;; k" := (bind c (fun x => k))
(at level 100, c at next level, right associativity) : go_scope.
Notation "c ;; k" := (bind c (fun _ => k))
(at level 100, right associativity) : go_scope.

(** ** Automation shared by the components *)

Create HintDb go_model discriminated.
Create Rewrite HintDb go_rw.
#[export] Hint Rewrite @bind_ret_l @bind_assoc @bind_stop : go_rw.
#[export] Hint Resolve bval_lt_256 byte_of_bval : go_model.

(** Unfold the monad and compute as far as the state allows. *)
Ltac prog_simpl :=
repeat (unfold bind, ret, get, put, modify, stop in *; simpl in *).
