(* ===== verification/GoContext.v ===== *)
(** * Deadlines: Go's [context.WithTimeout] and the non-blocking [select]

  Both programs derive a context with a timeout from
  [context.Background()] (server: [src/server/main.go] line 45, 210 ms;
  client: [src/client/main.go] line 14, 300 ms) and test it with
  [select { case <-ctx.Done(): ... default: ... }].  Time is a
  millisecond clock [Z]; a context is its absolute deadline, and its
  [Done] channel is observed closed exactly when the clock has reached
  the deadline (the timer of [context.WithDeadline] fires at the
  deadline; the scheduling jitter around that instant is not
  modelled). *)

From S2P Require Import Prelude.

Open Scope Z_scope.

(** The states of the components carry a clock; the [select] reads it. *)
Class HasClock (S : Type) := clock : S -> Z.

Module GoContext.

(** [ctx.Err()] of an expired deadline context. *)
Inductive ctx_err := DeadlineExceeded.

Record ctx := mk_ctx { deadline : Z }.

(** [context.WithTimeout(context.Background(), d)] at time [now]. *)
Definition with_timeout (now d : Z) : ctx := mk_ctx (now + d).

(** Is [<-ctx.Done()] ready at time [now]? *)
Definition done_at (c : ctx) (now : Z) : bool := deadline c <=? now.

(** [ctx.Err()] at time [now]. *)
Definition err_at (c : ctx) (now : Z) : option ctx_err :=
  if done_at c now then Some DeadlineExceeded else None.

(** [select { case <-ctx.Done(): on_done; default: dflt }]. *)
Definition select_done {S A} `{HasClock S} (c : ctx)
    (on_done dflt : prog S A) : prog S A :=
  fun s => if done_at c (clock s) then on_done s else dflt s.

(** The two budgets of the source, in milliseconds. *)
Definition server_timeout : Z := 210.
Definition client_timeout : Z := 300.

Lemma done_at_iff c now : done_at c now = true <-> deadline c <= now.
Proof. unfold done_at. apply Z.leb_le. Qed.

Lemma not_done_at_iff c now : done_at c now = false <-> now < deadline c.
Proof. unfold done_at. rewrite Z.leb_gt. reflexivity. Qed.

(** Once expired, a deadline context stays expired. *)
Lemma done_at_mono c t1 t2 :
  t1 <= t2 -> done_at c t1 = true -> done_at c t2 = true.
Proof. rewrite !done_at_iff. lia. Qed.

Lemma with_timeout_done now d t :
  done_at (with_timeout now d) t = true <-> now + d <= t.
Proof. apply done_at_iff. Qed.

Lemma with_timeout_not_done now d t :
  done_at (with_timeout now d) t = false <-> t < now + d.
Proof. apply not_done_at_iff. Qed.

Lemma select_done_expired {S A} `{HasClock S} c (on_done dflt : prog S A) s :
  deadline c <= clock s -> select_done c on_done dflt s = on_done s.
Proof. intros Hle. unfold select_done. by rewrite (proj2 (done_at_iff _ _) Hle). Qed.

Lemma select_done_live {S A} `{HasClock S} c (on_done dflt : prog S A) s :
  clock s < deadline c -> select_done c on_done dflt s = dflt s.
Proof. intros Hlt. unfold select_done. by rewrite (proj2 (not_done_at_iff _ _) Hlt). Qed.

End GoContext.

#[export] Hint Resolve GoContext.done_at_mono : go_model.
