(* ===== verification/Utf8.v ===== *)
(** * UTF-8 decoding: Go's [unicode/utf8.DecodeRune]

  The JSON encoder of [encoding/json] walks a string rune by rune
  with [utf8.DecodeRuneInString]; an invalid sequence decodes to
  [RuneError] (U+FFFD) of size 1.  This file models the decoder on
  the leading-byte classes of Go's [first] and [acceptRanges] tables
  and proves its size bounds. *)

From S2P Require Import Prelude.

Open Scope N_scope.

Module Utf8.

Definition rune_error : N := 0xFFFD.
Definition rune_self : N := 0x80.

(** [first[p0] & 7]: the length of the sequence a leading byte
    announces; 0 for the bytes Go marks [xx] (invalid). *)
Definition seq_size (x : N) : nat :=
  if x <? 0x80 then 1%nat
  else if x <? 0xC2 then 0%nat
  else if x <? 0xE0 then 2%nat
  else if x <? 0xF0 then 3%nat
  else if x <? 0xF5 then 4%nat
  else 0%nat.

(** [acceptRanges[first[p0] >> 4]]: the range of the second byte. *)
Definition accept (x : N) : N * N :=
  if x =? 0xE0 then (0xA0, 0xBF)
  else if x =? 0xED then (0x80, 0x9F)
  else if x =? 0xF0 then (0x90, 0xBF)
  else if x =? 0xF4 then (0x80, 0x8F)
  else (0x80, 0xBF).

Definition in_range (lo_hi : N * N) (b : byte) : bool :=
  (fst lo_hi <=? bval b) && (bval b <=? snd lo_hi).

(** [locb..hicb]: the range of a continuation byte. *)
Definition cont (b : byte) : bool := in_range (0x80, 0xBF) b.

Definition maskx (b : byte) : N := N.land (bval b) 0x3F.

(** [utf8.DecodeRune(p)]: the rune at the head of [p] and its size. *)
Definition decode_rune (p : bytes) : N * nat :=
  match p with
  | [] => (rune_error, 0%nat)
  | b0 :: p1 =>
      let x := bval b0 in
      match seq_size x, p1 with
      | 1%nat, _ => (x, 1%nat)
      | 2%nat, b1 :: _ =>
          if in_range (accept x) b1
          then (N.lor (N.shiftl (N.land x 0x1F) 6) (maskx b1), 2%nat)
          else (rune_error, 1%nat)
      | 3%nat, b1 :: b2 :: _ =>
          if in_range (accept x) b1 && cont b2
          then (N.lor (N.lor (N.shiftl (N.land x 0x0F) 12) (N.shiftl (maskx b1) 6))
                      (maskx b2), 3%nat)
          else (rune_error, 1%nat)
      | 4%nat, b1 :: b2 :: b3 :: _ =>
          if in_range (accept x) b1 && cont b2 && cont b3
          then (N.lor (N.lor (N.lor (N.shiftl (N.land x 0x07) 18) (N.shiftl (maskx b1) 12))
                             (N.shiftl (maskx b2) 6)) (maskx b3), 4%nat)
          else (rune_error, 1%nat)
      | _, _ => (rune_error, 1%nat)
      end
  end.

Definition max_rune : N := 0x10FFFF.
Definition is_surrogate (r : N) : bool := (0xD800 <=? r) && (r <=? 0xDFFF).

(** [utf8.EncodeRune(p, r)] / [utf8.AppendRune]: the bytes of [r];
    an invalid rune (above [MaxRune] or a surrogate) is written as
    [RuneError]. *)
Definition encode_rune (r : N) : bytes :=
  if r <=? 0x7F then [byte_of r]
  else if r <=? 0x7FF then
    [byte_of (N.lor 0xC0 (N.shiftr r 6)); byte_of (N.lor 0x80 (N.land r 0x3F))]
  else
    let r := if (max_rune <? r) || is_surrogate r then rune_error else r in
    if r <=? 0xFFFF then
      [byte_of (N.lor 0xE0 (N.shiftr r 12));
       byte_of (N.lor 0x80 (N.land (N.shiftr r 6) 0x3F));
       byte_of (N.lor 0x80 (N.land r 0x3F))]
    else
      [byte_of (N.lor 0xF0 (N.shiftr r 18));
       byte_of (N.lor 0x80 (N.land (N.shiftr r 12) 0x3F));
       byte_of (N.lor 0x80 (N.land (N.shiftr r 6) 0x3F));
       byte_of (N.lor 0x80 (N.land r 0x3F))].

(** A decoded rune never claims more bytes than there are. *)
Lemma decode_rune_size_le p : (snd (decode_rune p) <= length p)%nat.
Proof.
  destruct p as [|b0 [|b1 [|b2 [|b3 p]]]]; simpl;
    repeat case_match; simpl in *; simplify_eq; lia.
Qed.

(** A non-empty input always advances. *)
Lemma decode_rune_size_pos p : p <> [] -> (1 <= snd (decode_rune p))%nat.
Proof.
  intros Hp. destruct p as [|b0 [|b1 [|b2 [|b3 p]]]]; [done|..]; simpl;
    repeat case_match; simpl in *; simplify_eq; lia.
Qed.

(** The first four bytes decide the result ([DecodeRuneInString] on
    [src[i:i+n]] with [n <= UTFMax] in [appendString]). *)
Lemma decode_rune_take4 p : decode_rune (take 4 p) = decode_rune p.
Proof. destruct p as [|b0 [|b1 [|b2 [|b3 p]]]]; reflexivity. Qed.

(** An ASCII byte is its own rune. *)
Lemma decode_rune_ascii b p : bval b < rune_self -> decode_rune (b :: p) = (bval b, 1%nat).
Proof.
  intros H. unfold decode_rune, seq_size. unfold rune_self in H.
  by rewrite (proj2 (N.ltb_lt _ _) H).
Qed.

(** ** Round trip between [DecodeRune] and [EncodeRune] *)

Lemma encode_rune_ascii x : x < 0x80 -> encode_rune x = [byte_of x].
Proof. intros H. unfold encode_rune. by rewrite (proj2 (N.leb_le x 0x7F)) by lia. Qed.

(** A decoding that is not the error of an invalid byte. *)
Definition decoded_ok (d : N * nat) : bool :=
  negb ((fst d =? rune_error) && Nat.leb (snd d) 1).

(** The branches of [EncodeRune] by the range of the rune. *)
Lemma encode_rune_2 r :
  0x80 <= r <= 0x7FF ->
  encode_rune r = [byte_of (N.lor 0xC0 (N.shiftr r 6)); byte_of (N.lor 0x80 (N.land r 0x3F))].
Proof.
  intros H. unfold encode_rune.
  rewrite (proj2 (N.leb_gt r 0x7F)), (proj2 (N.leb_le r 0x7FF)) by lia. done.
Qed.

Lemma encode_rune_3 r :
  0x800 <= r <= 0xFFFF -> ~ (0xD800 <= r <= 0xDFFF) ->
  encode_rune r = [byte_of (N.lor 0xE0 (N.shiftr r 12));
                   byte_of (N.lor 0x80 (N.land (N.shiftr r 6) 0x3F));
                   byte_of (N.lor 0x80 (N.land r 0x3F))].
Proof.
  intros H Hs. unfold encode_rune, is_surrogate, max_rune.
  rewrite (proj2 (N.leb_gt r 0x7F)), (proj2 (N.leb_gt r 0x7FF)),
    (proj2 (N.ltb_ge 0x10FFFF r)) by lia.
  destruct (0xD800 <=? r) eqn:E1, (r <=? 0xDFFF) eqn:E2; nbool; try lia;
    cbn -[N.shiftr N.lor N.land]; by rewrite (proj2 (N.leb_le r 0xFFFF)) by lia.
Qed.

Lemma encode_rune_4 r :
  0x10000 <= r <= max_rune ->
  encode_rune r = [byte_of (N.lor 0xF0 (N.shiftr r 18));
                   byte_of (N.lor 0x80 (N.land (N.shiftr r 12) 0x3F));
                   byte_of (N.lor 0x80 (N.land (N.shiftr r 6) 0x3F));
                   byte_of (N.lor 0x80 (N.land r 0x3F))].
Proof.
  intros H. unfold encode_rune, is_surrogate, max_rune in *.
  rewrite (proj2 (N.leb_gt r 0x7F)), (proj2 (N.leb_gt r 0x7FF)),
    (proj2 (N.ltb_ge 0x10FFFF r)), (proj2 (N.leb_gt r 0xDFFF)) by lia.
  rewrite andb_false_r. cbn -[N.shiftr N.lor N.land].
  by rewrite (proj2 (N.leb_gt r 0xFFFF)) by lia.
Qed.

(** What [in_range (accept x)] admits for the second byte. *)
Lemma in_range_accept x b :
  in_range (accept x) b = true ->
  0x80 <= bval b <= 0xBF /\ (x = 0xE0 -> 0xA0 <= bval b) /\ (x = 0xED -> bval b <= 0x9F)
  /\ (x = 0xF0 -> 0x90 <= bval b) /\ (x = 0xF4 -> bval b <= 0x8F).
Proof.
  unfold in_range, accept. intros H.
  repeat case_match; simplify_eq; cbn [fst snd] in *; nbool; subst; repeat split; lia.
Qed.

Lemma cont_range b : cont b = true -> 0x80 <= bval b <= 0xBF.
Proof. unfold cont, in_range. cbn [fst snd]. intros H. nbool. lia. Qed.

(** Each byte a decoded value re-encodes to. *)
Ltac reencode_bytes :=
  repeat f_equal; apply byte_of_eq; bits_to_arith; nlia.

Lemma reencode_2 b0 b1 :
  0xC2 <= bval b0 < 0xE0 -> 0x80 <= bval b1 <= 0xBF ->
  encode_rune (N.lor (N.shiftl (N.land (bval b0) 0x1F) 6) (maskx b1)) = [b0; b1].
Proof.
  intros H0 H1. unfold maskx. bits_to_arith.
  rewrite encode_rune_2 by nlia. reencode_bytes.
Qed.

Lemma reencode_3 b0 b1 b2 :
  0xE0 <= bval b0 < 0xF0 -> 0x80 <= bval b1 <= 0xBF ->
  (bval b0 = 0xE0 -> 0xA0 <= bval b1) -> (bval b0 = 0xED -> bval b1 <= 0x9F) ->
  0x80 <= bval b2 <= 0xBF ->
  encode_rune (N.lor (N.lor (N.shiftl (N.land (bval b0) 0x0F) 12) (N.shiftl (maskx b1) 6))
                     (maskx b2)) = [b0; b1; b2].
Proof.
  intros H0 H1 H1a H1b H2. unfold maskx. bits_to_arith.
  rewrite encode_rune_3.
  - reencode_bytes.
  - split; [|nlia].
    destruct (decide (bval b0 = 0xE0)); [specialize (H1a ltac:(done)); nlia | nlia].
  - destruct (decide (bval b0 = 0xED)); [specialize (H1b ltac:(done)); nlia | nlia].
Qed.

Lemma reencode_4 b0 b1 b2 b3 :
  0xF0 <= bval b0 < 0xF5 -> 0x80 <= bval b1 <= 0xBF ->
  (bval b0 = 0xF0 -> 0x90 <= bval b1) -> (bval b0 = 0xF4 -> bval b1 <= 0x8F) ->
  0x80 <= bval b2 <= 0xBF -> 0x80 <= bval b3 <= 0xBF ->
  encode_rune (N.lor (N.lor (N.lor (N.shiftl (N.land (bval b0) 0x07) 18) (N.shiftl (maskx b1) 12))
                            (N.shiftl (maskx b2) 6)) (maskx b3)) = [b0; b1; b2; b3].
Proof.
  intros H0 H1 H1a H1b H2 H3. unfold maskx. bits_to_arith.
  rewrite encode_rune_4.
  - reencode_bytes.
  - unfold max_rune. split.
    + destruct (decide (bval b0 = 0xF0)); [specialize (H1a ltac:(done)); nlia | nlia].
    + destruct (decide (bval b0 = 0xF4)); [specialize (H1b ltac:(done)); nlia | nlia].
Qed.

(** Re-encoding the rune [DecodeRune] reads gives back the bytes it
    consumed, whenever the decoding is not the error of an invalid
    byte. *)
Lemma encode_decode_rune p :
  decoded_ok (decode_rune p) = true ->
  encode_rune (fst (decode_rune p)) = take (snd (decode_rune p)) p.
Proof.
  destruct p as [|b0 [|b1 [|b2 [|b3 p]]]]; [done|..];
    unfold decoded_ok, decode_rune, seq_size; intros Hok;
    repeat case_match; simplify_eq; cbn [fst snd take] in *; nbool; try done;
    repeat match goal with
    | H : in_range (accept _) _ = true |- _ => apply in_range_accept in H as (? & ? & ? & ? & ?)
    | H : cont _ = true |- _ => apply cont_range in H
    end.
  all: first [ by rewrite encode_rune_2 | by apply reencode_2
             | by apply reencode_3 | by apply reencode_4
             | unfold encode_rune; rewrite (proj2 (N.leb_le _ 0x7F)) by lia; by rewrite byte_of_bval ].
Qed.

(** A well-formed sequence decodes the same whatever follows it. *)
Lemma decode_rune_app p q :
  decoded_ok (decode_rune p) = true ->
  decode_rune (take (snd (decode_rune p)) p ++ q) = decode_rune p.
Proof.
  destruct p as [|b0 [|b1 [|b2 [|b3 p]]]]; [done|..]; unfold decoded_ok;
    unfold decode_rune; intros H; repeat (case_match; simplify_eq/=); done.
Qed.

(** ** [DecodeRune] reads back what [EncodeRune] writes *)

(** Settle the comparisons of a goal whose truth [nlia] decides,
    splitting on the equality tests it cannot. *)
Ltac decide_ifs :=
  repeat (match goal with
  | |- context [(?a <? ?b)%N] =>
      first [ rewrite (proj2 (N.ltb_lt a b)) by nlia | rewrite (proj2 (N.ltb_ge a b)) by nlia ]
  | |- context [(?a <=? ?b)%N] =>
      first [ rewrite (proj2 (N.leb_le a b)) by nlia | rewrite (proj2 (N.leb_gt a b)) by nlia ]
  | |- context [(?a =? ?b)%N] =>
      first [ rewrite (proj2 (N.eqb_eq a b)) by nlia | rewrite (proj2 (N.eqb_neq a b)) by nlia ]
  | |- context [(?a =? ?b)%N] => destruct (a =? b) eqn:?; nbool
  end; cbv beta iota delta [fst snd andb]).


(** Decode an encoding whose leading byte is [N.lor c (r >> _)] with
    [k] free low bits: the leading byte's class first, then the
    continuation bytes of the branch it selects. *)
Ltac decode_encoded c k :=
  cbn [app]; unfold decode_rune, seq_size;
  rewrite ?bval_byte_of by (bits_to_arith; nlia);
  rewrite ?N.shiftr_div_pow2;
  let y := fresh "y" in
  lazymatch goal with |- context [N.lor c ?e] => set (y := e) end;
  rewrite (lor_disjoint_add c y k) by (subst y; nlia); subst y;
  decide_ifs; cbn -[N.lor N.land N.shiftl N.div N.modulo N.pow];
  unfold cont, accept, in_range, maskx; cbn [fst snd];
  bits_to_arith; rewrite ?bval_byte_of by nlia; decide_ifs; cbn; f_equal; nlia.

(** A rune of the scalar range decodes from its encoding, whatever
    follows it. *)
Lemma decode_encode_rune_app r t :
  r <= max_rune -> is_surrogate r = false ->
  decode_rune (encode_rune r ++ t) = (r, length (encode_rune r)).
Proof.
  unfold is_surrogate. intros Hr Hs. nbool.
  destruct (N.le_gt_cases r 0x7F).
  - rewrite encode_rune_ascii by lia. cbn [app length].
    rewrite decode_rune_ascii; [by rewrite bval_byte_of by lia|].
    rewrite bval_byte_of; unfold rune_self; lia.
  - destruct (N.le_gt_cases r 0x7FF).
    + rewrite encode_rune_2 by lia. decode_encoded 0xC0 5%N.
    + destruct (N.le_gt_cases r 0xFFFF).
      * assert (~ (0xD800 <= r <= 0xDFFF)).
        { intros [? ?]. rewrite (proj2 (N.leb_le 0xD800 r)), (proj2 (N.leb_le r 0xDFFF)) in Hs
            by lia. discriminate. }
        rewrite encode_rune_3 by lia. decode_encoded 0xE0 4%N.
      * unfold max_rune in Hr. rewrite encode_rune_4 by (unfold max_rune; lia). decode_encoded 0xF0 3%N.
Qed.

(** C22: [EncodeRune] and [DecodeRune] are inverse: every rune of the
    scalar range (up to [MaxRune], no surrogate) decodes from its
    encoding, and every decoding that is not the error of an invalid
    byte re-encodes to exactly the bytes it consumed. *)
Theorem utf8_roundtrip :
  (forall r, r <= max_rune -> is_surrogate r = false ->
     decode_rune (encode_rune r) = (r, length (encode_rune r))) /\
  (forall p, decoded_ok (decode_rune p) = true ->
     encode_rune (fst (decode_rune p)) = take (snd (decode_rune p)) p).
Proof.
  split; [|exact encode_decode_rune].
  intros r Hr Hs. pose proof (decode_encode_rune_app r [] Hr Hs) as H.
  by rewrite app_nil_r in H.
Qed.

(** ** Go's conversions between [string] and [[]rune] *)

(** [[]rune(s)]: the runes of [s], an invalid byte giving [RuneError]. *)
Fixpoint runes_of (fuel : nat) (s : bytes) : list N :=
  match s, fuel with
  | [], _ | _, O => []
  | _ :: _, S f => let '(r, n) := decode_rune s in r :: runes_of f (drop n s)
  end.
Definition runes (s : bytes) : list N := runes_of (length s) s.

(** [string(rs)] for a [[]rune]. *)
Definition string_of_runes (rs : list N) : bytes := mjoin (encode_rune <$> rs).

(** [utf8.Valid(s)]: [s] holds no invalid byte. *)
Fixpoint valid_of (fuel : nat) (s : bytes) : bool :=
  match s, fuel with
  | [], _ => true
  | _, O => false
  | _ :: _, S f => decoded_ok (decode_rune s) && valid_of f (drop (snd (decode_rune s)) s)
  end.
Definition valid (s : bytes) : bool := valid_of (length s) s.

(** Converting a valid string to runes and back is the identity. *)
Lemma string_of_runes_valid fuel s :
  (length s <= fuel)%nat -> valid_of fuel s = true ->
  string_of_runes (runes_of fuel s) = s.
Proof.
  revert s. induction fuel as [|f IH]; intros s Hl Hv; destruct s as [|b s']; try done.
  cbn [valid_of runes_of] in *. apply andb_prop in Hv as [Hok Hv].
  pose proof (decode_rune_size_pos (b :: s') ltac:(done)) as Hpos.
  pose proof (decode_rune_size_le (b :: s')) as Hle.
  pose proof (encode_decode_rune (b :: s') Hok) as He.
  destruct (decode_rune (b :: s')) as [r n]; simpl in *.
  unfold string_of_runes in *. rewrite fmap_cons. cbn [mjoin list_join].
  rewrite He, IH by (rewrite ?length_drop; simpl; lia || done).
  apply take_drop.
Qed.

End Utf8.

#[export] Hint Resolve Utf8.decode_rune_size_le Utf8.decode_rune_size_pos : go_model.
