(* ===== verification/JsonEncode.v ===== *)
(** * JSON string encoding: [json.NewEncoder(w).Encode(bid)]

  The server answers with [json.NewEncoder(w).Encode(cotacao.Usdbrl.Bid)]
  ([src/server/main.go] line 60).  For a Go [string] the encoder runs
  [appendString(dst, src, escapeHTML)] of [encoding/json/encode.go]
  ([escapeHTML] is true for [NewEncoder]) and [Encode] appends a
  newline.  [append_loop] is that loop as written, with its [i] and
  [start] indices copying unescaped runs in bulk; [quote_ref] is a
  rune-by-rune reference; [append_string_spec] proves them equal.
    The escapes are those of Go 1.22 and later ([\b] and [\f] have
    their short forms). *)

From S2P Require Import Prelude Utf8.

Open Scope N_scope.

Module JsonEncode.

(** [hex = "0123456789abcdef"]; [hex[n]]. *)
Definition hex_digits : bytes := bs "0123456789abcdef".
Definition hex (n : N) : byte := nth (N.to_nat n) hex_digits x30.

(** [htmlSafeSet[b]]: printable ASCII except the double quote, the
    backslash and the three HTML characters less-than, greater-than
    and ampersand. *)
Definition html_safe (x : N) : bool :=
  (0x20 <=? x) && (x <? 0x80) && negb (x =? 0x22) && negb (x =? 0x5C)
  && negb (x =? 0x3C) && negb (x =? 0x3E) && negb (x =? 0x26).

(** [safeSet[b]]: printable ASCII except the double quote and the
    backslash. *)
Definition safe (x : N) : bool :=
  (0x20 <=? x) && (x <? 0x80) && negb (x =? 0x22) && negb (x =? 0x5C).

Definition no_escape (escapeHTML : bool) (x : N) : bool :=
  html_safe x || (negb escapeHTML && safe x).

(** The [switch b] of [appendString] for an ASCII byte to escape. *)
Definition escape_ascii (b : byte) : bytes :=
  match b with
  | x5c | x22 => [x5c; b]          (* backslash, double quote *)
  | x08 => [x5c; x62]              (* \b *)
  | x0c => [x5c; x66]              (* \f *)
  | x0a => [x5c; x6e]              (* \n *)
  | x0d => [x5c; x72]              (* \r *)
  | x09 => [x5c; x74]              (* \t *)
  | _ => [x5c; x75; x30; x30; hex (N.shiftr (bval b) 4); hex (N.land (bval b) 0xF)]
  end.

(** [\ufffd] for an invalid byte, [\u202X] for U+2028 and U+2029. *)
Definition escape_ufffd : bytes := bs "\ufffd".
Definition escape_u202x (c : N) : bytes := [x5c; x75; x32; x30; x32; hex (N.land c 0xF)].

Definition is_line_sep (c : N) : bool := (c =? 0x2028) || (c =? 0x2029).

(** [src[start:i]]. *)
Definition slice (src : bytes) (start i : nat) : bytes := take (i - start) (drop start src).

(** The loop [for i := 0; i < len(src); { ... }] of [appendString],
    with the variables [i], [start] and [dst]; [fuel] bounds the
    iterations (each advances [i]). *)
Fixpoint append_loop (fuel : nat) (escapeHTML : bool) (src : bytes)
    (i start : nat) (dst : bytes) : bytes :=
  match src !! i with
  | None => dst ++ drop start src ++ [x22]
  | Some b =>
    match fuel with
    | O => dst ++ drop start src ++ [x22]
    | S fuel' =>
      if bval b <? Utf8.rune_self then
        if no_escape escapeHTML (bval b)
        then append_loop fuel' escapeHTML src (S i) start dst
        else append_loop fuel' escapeHTML src (S i) (S i)
               (dst ++ slice src start i ++ escape_ascii b)
      else
        let '(c, size) := Utf8.decode_rune (take 4 (drop i src)) in
        if (c =? Utf8.rune_error) && Nat.eqb size 1 then
          append_loop fuel' escapeHTML src (i + size) (i + size)
            (dst ++ slice src start i ++ escape_ufffd)
        else if is_line_sep c then
          append_loop fuel' escapeHTML src (i + size) (i + size)
            (dst ++ slice src start i ++ escape_u202x c)
        else append_loop fuel' escapeHTML src (i + size) start dst
    end
  end.

(** [appendString(dst, src, escapeHTML)]. *)
Definition append_string (dst src : bytes) (escapeHTML : bool) : bytes :=
  append_loop (length src) escapeHTML src 0 0 (dst ++ [x22]).

(** [json.NewEncoder(w).Encode(s)] for a string [s]: the bytes written. *)
Definition encode_string (s : bytes) : bytes := append_string [] s true ++ [x0a].

(** The rune at the head of [s], as the encoder outputs it, and its size. *)
Definition rune_chunk (escapeHTML : bool) (s : bytes) : bytes * nat :=
  match s with
  | [] => ([], 0%nat)
  | b :: _ =>
    if bval b <? Utf8.rune_self then
      (if no_escape escapeHTML (bval b) then [b] else escape_ascii b, 1%nat)
    else
      let '(c, size) := Utf8.decode_rune s in
      if (c =? Utf8.rune_error) && Nat.eqb size 1 then (escape_ufffd, size)
      else if is_line_sep c then (escape_u202x c, size)
      else (take size s, size)
  end.

(** Reference: quote rune by rune. *)
Fixpoint quote_ref (fuel : nat) (escapeHTML : bool) (s : bytes) : bytes :=
  match s with
  | [] => []
  | _ :: _ =>
    match fuel with
    | O => s
    | S fuel' => let '(o, n) := rune_chunk escapeHTML s in
                 o ++ quote_ref fuel' escapeHTML (drop n s)
    end
  end.


(** ** The loop against the reference *)

Lemma slice_app src start i n :
  (start <= i)%nat ->
  slice src start (i + n) = slice src start i ++ take n (drop i src).
Proof.
  intros Hle. unfold slice.
  replace (drop i src) with (drop (i - start) (drop start src))
    by (rewrite drop_drop; f_equal; lia).
  rewrite take_take_drop. f_equal. lia.
Qed.

Lemma slice_empty src i : slice src i i = [].
Proof. unfold slice. by rewrite Nat.sub_diag. Qed.

Lemma slice_end src start :
  slice src start (length src) = drop start src.
Proof. unfold slice. apply take_ge. rewrite length_drop. lia. Qed.

Lemma rune_chunk_ascii e b rest :
  (bval b <? Utf8.rune_self) = true ->
  rune_chunk e (b :: rest) = (if no_escape e (bval b) then [b] else escape_ascii b, 1%nat).
Proof. intros H. simpl. by rewrite H. Qed.

(** The invariant of the loop: what is already in [dst], the pending
    run [src[start:i]], then the reference on the rest. *)
Lemma append_loop_spec fuel e src i start dst :
  (start <= i)%nat -> (i <= length src)%nat -> (length src - i <= fuel)%nat ->
  append_loop fuel e src i start dst
  = dst ++ slice src start i ++ quote_ref fuel e (drop i src) ++ [x22].
Proof.
  revert i start dst. induction fuel as [|fuel IH]; intros i start dst H1 H2 H3.
  - assert (i = length src) as -> by lia.
    simpl. rewrite lookup_ge_None_2 by lia. rewrite (drop_ge src (length src)) by lia.
    by rewrite slice_end.
  - simpl. destruct (src !! i) as [b|] eqn:Hb.
    2:{ apply lookup_ge_None in Hb. assert (i = length src) as -> by lia.
        rewrite (drop_ge src (length src)) by lia. by rewrite slice_end. }
    rewrite (drop_S src b i Hb).
    pose proof (lookup_lt_Some _ _ _ Hb) as Hi.
    destruct (bval b <? Utf8.rune_self) eqn:Ha.
    + rewrite (rune_chunk_ascii _ _ _ Ha). simpl.
      destruct (no_escape e (bval b)).
      * rewrite IH by lia. rewrite <- Nat.add_1_r, slice_app by lia.
        rewrite (drop_S src b i Hb). simpl. by rewrite <- !app_assoc.
      * rewrite IH by lia. rewrite slice_empty. simpl. by rewrite <- !app_assoc.
    + rewrite <- (drop_S src b i Hb), Utf8.decode_rune_take4.
      unfold rune_chunk. rewrite (drop_S src b i Hb), Ha, <- (drop_S src b i Hb).
      pose proof (Utf8.decode_rune_size_le (drop i src)) as Hle.
      pose proof (Utf8.decode_rune_size_pos (drop i src)) as Hpos.
      rewrite length_drop in Hle.
      rewrite (drop_S src b i Hb) in Hpos. specialize (Hpos ltac:(done)).
      rewrite <- (drop_S src b i Hb) in Hpos.
      destruct (Utf8.decode_rune (drop i src)) as [c size]. simpl in Hle, Hpos.
      destruct ((c =? Utf8.rune_error) && Nat.eqb size 1); [|destruct (is_line_sep c)];
        cbn zeta; rewrite drop_drop, IH by lia;
        rewrite ?slice_empty, ?slice_app by lia; simpl; by rewrite <- ?app_assoc.
Qed.

(** C17: the loop of [appendString], which copies unescaped runs in
    bulk with its [i] and [start] indices, computes the rune-by-rune
    reference quoting, for any [dst], input and HTML flag. *)
Lemma append_string_spec dst src e :
  append_string dst src e = dst ++ [x22] ++ quote_ref (length src) e src ++ [x22].
Proof.
  unfold append_string. rewrite append_loop_spec by lia.
  rewrite slice_empty. simpl. by rewrite <- app_assoc.
Qed.


(** A string of HTML-safe printable ASCII is its own quoting. *)
Definition all_html_safe (s : bytes) : bool := forallb (fun b => html_safe (bval b)) s.

Lemma html_safe_ascii x : html_safe x = true -> (x <? Utf8.rune_self) = true.
Proof. unfold html_safe, Utf8.rune_self. intros H. repeat (apply andb_prop in H as [H ?]). done. Qed.

Lemma quote_ref_safe fuel e s :
  all_html_safe s = true -> quote_ref fuel e s = s.
Proof.
  revert fuel. induction s as [|b s IH]; intros fuel Hs; [by destruct fuel|].
  simpl in Hs. apply andb_prop in Hs as [Hb Hs].
  destruct fuel as [|fuel]; [done|]. simpl.
  rewrite (html_safe_ascii _ Hb). unfold no_escape. rewrite Hb. simpl.
  by rewrite IH.
Qed.

(** C16: the server's encoding of a bid made of HTML-safe printable
    ASCII (such as [5.4321]) is the bid between double quotes,
    followed by a newline. *)
Theorem encode_string_safe s :
  all_html_safe s = true -> encode_string s = [x22] ++ s ++ [x22; x0a].
Proof.
  intros Hs. unfold encode_string, append_string.
  rewrite append_loop_spec, slice_empty, quote_ref_safe by (done || lia).
  simpl. by rewrite <- app_assoc.
Qed.

End JsonEncode.
