(* ===== verification/JsonDecode.v ===== *)
(** * JSON decoding: the syntax check and string unquoting of [json.Unmarshal]

  [GetApiCotacao] decodes the upstream body with
  [json.Unmarshal(res, &data)] ([src/server/main.go] line 84).
  [Unmarshal] first runs [checkValid] (the scanner of
  [encoding/json/scanner.go]) over the whole input, and returns a
  [SyntaxError] without touching [data] when it fails; otherwise it
  decodes the value, unquoting strings with [unquoteBytes]
  ([encoding/json/decode.go]).  [parse] does both at once: it
  accepts exactly the scanner's grammar (whitespace is space, tab,
  newline, carriage return; nesting depth at most [maxNestingDepth]
  = 10000) and returns the value with its strings unquoted, which is
  what the decoder then walks.  Numbers keep their literal text.

  The module [JsonRoundtrip] at the end composes this decoder with
  the encoder of [JsonEncode]: the server's JSON output read back by
  a JSON decoder. *)

From S2P Require Import Prelude Utf8 JsonEncode.

Open Scope N_scope.

Module JsonDecode.

#[warnings="-register-all"] Inductive value :=
| JNull
| JBool (b : bool)
| JNumber (lit : bytes)
| JString (s : bytes)
| JArray (vs : list value)
| JObject (kvs : list (bytes * value)).

Definition max_nesting_depth : N := 10000.

(** [isSpace]. *)
Definition is_space (b : byte) : bool :=
  match b with x20 | x09 | x0a | x0d => true | _ => false end.

Fixpoint skip_ws (s : bytes) : bytes :=
  match s with
  | b :: r => if is_space b then skip_ws r else s
  | [] => []
  end.

(** ** Strings *)

(** The value of a hexadecimal digit (either case). *)
Definition hex_val (b : byte) : option N :=
  let x := bval b in
  if (0x30 <=? x) && (x <=? 0x39) then Some (x - 0x30)
  else if (0x61 <=? x) && (x <=? 0x66) then Some (x - 0x61 + 10)
  else if (0x41 <=? x) && (x <=? 0x46) then Some (x - 0x41 + 10)
  else None.

(** [getu4(s)]: the rune of the escape [\uXXXX] at the head of [s]
    (Go returns -1 when [s] does not start with one), and the rest. *)
Definition getu4 (s : bytes) : option (N * bytes) :=
  match s with
  | b0 :: b1 :: h1 :: h2 :: h3 :: h4 :: r =>
      if (bval b0 =? 0x5C) && (bval b1 =? 0x75) then
        d1 ← hex_val h1; d2 ← hex_val h2; d3 ← hex_val h3; d4 ← hex_val h4;
        Some (((d1 * 16 + d2) * 16 + d3) * 16 + d4, r)
      else None
  | _ => None
  end.

(** [utf16.DecodeRune(r1, r2)]. *)
Definition utf16_decode (r1 r2 : N) : N :=
  if (0xD800 <=? r1) && (r1 <? 0xDC00) && (0xDC00 <=? r2) && (r2 <? 0xE000)
  then N.lor (N.shiftl (r1 - 0xD800) 10) (r2 - 0xDC00) + 0x10000
  else Utf8.rune_error.

(** The one-character escapes the scanner accepts after a backslash,
    and the byte [unquote] writes for each. *)
Definition simple_escape (c : byte) : option byte :=
  match c with
  | x22 => Some x22 | x5c => Some x5c | x2f => Some x2f
  | x62 => Some x08 | x66 => Some x0c | x6e => Some x0a
  | x72 => Some x0d | x74 => Some x09
  | _ => None
  end.

(** ** The fuel

  Go's scanner and [unquote] are loops over the input; the model
  recurses with a fuel argument instead.  What the model returns when
  the fuel runs out is left open, as two arguments
  ([string_exhausted] and [value_exhausted]), so that
  [parse_fuel_enough] can show that [parse]'s fuel never runs out:
  the result does not depend on them. *)
(** The body of a string after its opening quote: the unquoted bytes
    (appended to [acc]) and the input after the closing quote.  A
    byte below 0x20 is a syntax error; a non-ASCII byte is decoded
    as a rune and re-encoded, so an invalid sequence becomes U+FFFD
    (the continuation bytes it reads are never a quote or a
    backslash, so reading past the string's end, which [unquote]
    cannot do, changes nothing). *)
Fixpoint parse_string (string_exhausted : option (bytes * bytes)) (fuel : nat) (s acc : bytes)
    : option (bytes * bytes) :=
  match fuel with
  | O => string_exhausted
  | S f =>
    match s with
    | [] => None
    | c :: r =>
      if bval c =? 0x22 then Some (acc, r)
      else if bval c =? 0x5C then
        match r with
        | [] => None
        | e :: r' =>
          if bval e =? 0x75 then
            '(rr, r1) ← getu4 s;
            if Utf8.is_surrogate rr then
              match getu4 r1 with
              | Some (rr1, r3) =>
                  let dec := utf16_decode rr rr1 in
                  if dec =? Utf8.rune_error
                  then parse_string string_exhausted f r1 (acc ++ Utf8.encode_rune Utf8.rune_error)
                  else parse_string string_exhausted f r3 (acc ++ Utf8.encode_rune dec)
              | None => parse_string string_exhausted f r1 (acc ++ Utf8.encode_rune Utf8.rune_error)
              end
            else parse_string string_exhausted f r1 (acc ++ Utf8.encode_rune rr)
          else b ← simple_escape e; parse_string string_exhausted f r' (acc ++ [b])
        end
      else if bval c <? 0x20 then None
      else if bval c <? Utf8.rune_self then parse_string string_exhausted f r (acc ++ [c])
      else let '(rr, size) := Utf8.decode_rune s in
           parse_string string_exhausted f (drop size s) (acc ++ Utf8.encode_rune rr)
    end
  end.

(** ** Numbers and literals *)

Definition is_digit (b : byte) : bool := (0x30 <=? bval b) && (bval b <=? 0x39).

Fixpoint span_digits (s : bytes) : bytes * bytes :=
  match s with
  | b :: r => if is_digit b then let '(d, r') := span_digits r in (b :: d, r') else ([], s)
  | [] => ([], [])
  end.

(** One or more digits. *)
Definition digits1 (s : bytes) : option (bytes * bytes) :=
  match span_digits s with ([], _) => None | dr => Some dr end.

(** [-]? ([0] | [1-9][0-9]* ) ([.][0-9]+)? ([eE][+-]?[0-9]+)?, as
    the scanner states [stateNeg] to [stateE0] accept it. *)
Definition parse_number (s : bytes) : option (bytes * bytes) :=
  let '(sign, s1) := match s with
                     | c :: r => if bval c =? 0x2D then ([c], r) else ([], s)
                     | [] => ([], s)
                     end in
  '(int, s2) ← match s1 with
               | c :: r => if bval c =? 0x30 then Some ([c], r)
                           else if (0x31 <=? bval c) && (bval c <=? 0x39) then digits1 s1
                           else None
               | [] => None
               end;
  '(frac, s3) ← match s2 with
                | c :: r => if bval c =? 0x2E then '(d, r') ← digits1 r; Some (c :: d, r')
                            else Some ([], s2)
                | [] => Some ([], s2)
                end;
  '(exp, s4) ← match s3 with
               | e :: r =>
                 if (bval e =? 0x65) || (bval e =? 0x45) then
                   let '(sg, r1) := match r with
                                    | c :: r1 => if (bval c =? 0x2B) || (bval c =? 0x2D)
                                                 then ([c], r1) else ([], r)
                                    | [] => ([], r)
                                    end in
                   '(d, r') ← digits1 r1; Some (e :: sg ++ d, r')
                 else Some ([], s3)
               | [] => Some ([], s3)
               end;
  Some (sign ++ int ++ frac ++ exp, s4).

(** ** Values *)

(** The rest of [s] after the bytes [p], which [s] must start with
    (the scanner states [stateT], [stateTr], ... check one byte each). *)
Definition strip_prefix (p s : bytes) : option bytes :=
  if bool_decide (take (length p) s = p) then Some (drop (length p) s) else None.

(** The literals [true], [false], [null] and numbers. *)
Definition parse_scalar (s : bytes) : option (value * bytes) :=
  match s with
  | c :: r =>
    if bval c =? 0x74 then r' ← strip_prefix (bs "rue") r; Some (JBool true, r')
    else if bval c =? 0x66 then r' ← strip_prefix (bs "alse") r; Some (JBool false, r')
    else if bval c =? 0x6E then r' ← strip_prefix (bs "ull") r; Some (JNull, r')
    else '(lit, r') ← parse_number s; Some (JNumber lit, r')
  | [] => None
  end.

(** [parse_value fuel depth s]: a value after optional whitespace;
    [depth] counts the enclosing arrays and objects. *)
Fixpoint parse_value (string_exhausted : option (bytes * bytes))
    (value_exhausted : option (value * bytes)) (fuel : nat) (depth : N) (s : bytes)
    : option (value * bytes) :=
  match fuel with
  | O => value_exhausted
  | S f =>
    match skip_ws s with
    | c :: r =>
      if bval c =? 0x7B then
        if max_nesting_depth <? depth + 1 then None
        else match skip_ws r with
             | c' :: r' => if bval c' =? 0x7D then Some (JObject [], r')
                           else parse_members string_exhausted value_exhausted f (depth + 1) r []
             | [] => None
             end
      else if bval c =? 0x5B then
        if max_nesting_depth <? depth + 1 then None
        else match skip_ws r with
             | c' :: r' => if bval c' =? 0x5D then Some (JArray [], r')
                           else parse_elems string_exhausted value_exhausted f (depth + 1) r []
             | [] => None
             end
      else if bval c =? 0x22 then
        '(str, r') ← parse_string string_exhausted (length r + 1) r [];
        Some (JString str, r')
      else parse_scalar (c :: r)
    | [] => None
    end
  end
(** The members of an object after [{] (and after each comma). *)
with parse_members (string_exhausted : option (bytes * bytes))
    (value_exhausted : option (value * bytes)) (fuel : nat) (depth : N) (s : bytes)
    (acc : list (bytes * value))
    : option (value * bytes) :=
  match fuel with
  | O => value_exhausted
  | S f =>
    match skip_ws s with
    | c :: r =>
      if bval c =? 0x22 then
        '(k, r1) ← parse_string string_exhausted (length r + 1) r [];
        match skip_ws r1 with
        | c1 :: r2 =>
          if bval c1 =? 0x3A then
            '(v, r3) ← parse_value string_exhausted value_exhausted f depth r2;
            match skip_ws r3 with
            | c2 :: r4 =>
              if bval c2 =? 0x2C
              then parse_members string_exhausted value_exhausted f depth r4 (acc ++ [(k, v)])
              else if bval c2 =? 0x7D then Some (JObject (acc ++ [(k, v)]), r4)
              else None
            | [] => None
            end
          else None
        | [] => None
        end
      else None
    | [] => None
    end
  end
(** The elements of an array after [[] (and after each comma). *)
with parse_elems (string_exhausted : option (bytes * bytes))
    (value_exhausted : option (value * bytes)) (fuel : nat) (depth : N) (s : bytes)
    (acc : list value)
    : option (value * bytes) :=
  match fuel with
  | O => value_exhausted
  | S f =>
    '(v, r) ← parse_value string_exhausted value_exhausted f depth s;
    match skip_ws r with
    | c :: r' =>
      if bval c =? 0x2C then parse_elems string_exhausted value_exhausted f depth r' (acc ++ [v])
      else if bval c =? 0x5D then Some (JArray (acc ++ [v]), r')
      else None
    | [] => None
    end
  end.

(** [checkValid] and the decoding of the value: the whole input must
    be one value surrounded by whitespace.  The fuel counts the calls
    of [parse_value], [parse_members] and [parse_elems]; each consumes
    a byte at least every second call. *)
Definition parse_with (string_exhausted : option (bytes * bytes))
    (value_exhausted : option (value * bytes)) (fuel : nat) (data : bytes) : option value :=
  '(v, r) ← parse_value string_exhausted value_exhausted fuel 0 data;
  match skip_ws r with [] => Some v | _ => None end.
Definition parse (data : bytes) : option value :=
  parse_with None None (2 * length data + 2) data.

(** ** What each parser consumes *)

Lemma skip_ws_length s : (length (skip_ws s) <= length s)%nat.
Proof. induction s as [|b s IH]; simpl; [lia|]. case_match; simpl; lia. Qed.

Lemma skip_ws_cons s b r : skip_ws s = b :: r -> (length r < length s)%nat.
Proof. intros H. pose proof (skip_ws_length s) as L. rewrite H in L. simpl in L. lia. Qed.

Lemma getu4_length s n r : getu4 s = Some (n, r) -> length s = (6 + length r)%nat.
Proof. destruct s as [|?[|?[|?[|?[|?[|? s]]]]]]; intros H; simplify_option_eq; case_match; simplify_option_eq; done. Qed.

Lemma decode_rune_drop_lt c s :
  (length (drop (snd (Utf8.decode_rune (c :: s))) (c :: s)) < S (length s))%nat.
Proof.
  pose proof (Utf8.decode_rune_size_pos (c :: s) ltac:(done)).
  rewrite length_drop. simpl in *. lia.
Qed.

(** Length facts from the equations a case analysis leaves. *)
Ltac json_lengths :=
  repeat match goal with
  | H : skip_ws ?s = _ :: ?r |- _ =>
      lazymatch goal with _ : (length r < length s)%nat |- _ => fail | _ => idtac end;
      pose proof (skip_ws_cons _ _ _ H)
  | H : getu4 ?s = Some (_, ?r) |- _ =>
      lazymatch goal with _ : length s = (6 + length r)%nat |- _ => fail | _ => idtac end;
      pose proof (getu4_length _ _ _ H)
  end.

(** One case split of the parsers' control flow: a [match], an [if],
    or an option bind. *)
Ltac json_case :=
  first [ case_match
        | match goal with
          | |- context [mbind _ ?m] => destruct m as [?|] eqn:?; cbn [mbind option_bind]
          end ].

(** A string ends at its closing quote, strictly inside the input. *)
Lemma parse_string_rest f s acc a r :
  parse_string None f s acc = Some (a, r) -> (length r < length s)%nat.
Proof.
  revert s acc. induction f as [|f IH]; intros s acc H; [done|].
  destruct s as [|c s]; [done|]. pose proof (decode_rune_drop_lt c s) as Hd.
  cbn [parse_string] in H.
  destruct (bval c =? 0x22); [simplify_eq/=; lia|].
  destruct (bval c =? 0x5C).
  - destruct s as [|e r']; [done|]. destruct (bval e =? 0x75).
    + destruct (getu4 (c :: e :: r')) as [[rr r1]|] eqn:G; [|done]. simpl in H.
      apply getu4_length in G.
      destruct (Utf8.is_surrogate rr);
        [destruct (getu4 r1) as [[rr1 r3]|] eqn:G2; [apply getu4_length in G2; case_match|]|];
        apply IH in H; simpl in *; lia.
    + destruct (simple_escape e); [|done]. simpl in H. apply IH in H. simpl. lia.
  - destruct (bval c <? 0x20); [done|]. destruct (bval c <? Utf8.rune_self).
    + apply IH in H. simpl. lia.
    + destruct (Utf8.decode_rune (c :: s)) as [rr size]. apply IH in H. simpl in *. lia.
Qed.

Lemma span_digits_app s : (span_digits s).1 ++ (span_digits s).2 = s.
Proof.
  induction s as [|b s IH]; [done|]. simpl.
  destruct (is_digit b); [|done]. destruct (span_digits s). simpl in *. by rewrite IH.
Qed.

Lemma digits1_app s d r : digits1 s = Some (d, r) -> s = d ++ r /\ (0 < length d)%nat.
Proof.
  unfold digits1. pose proof (span_digits_app s) as E.
  destruct (span_digits s) as [[|b d'] r']; intros H; simplify_eq/=; split; done || lia.
Qed.

(** A number literal is exactly the prefix the scanner consumed. *)
Lemma parse_number_app s lit r :
  parse_number s = Some (lit, r) -> s = lit ++ r /\ (0 < length lit)%nat.
Proof.
  unfold parse_number. intros H.
  repeat (case_match; simplify_option_eq);
    repeat match goal with Hd : digits1 _ = Some _ |- _ => apply digits1_app in Hd as [Hd ?]; rewrite Hd end;
    (split; [rewrite <- ?app_assoc; simpl; rewrite <- ?app_assoc; simpl; rewrite ?app_nil_r; done
            | rewrite ?length_app; simpl; lia]).
Qed.

Lemma strip_prefix_app p s r : strip_prefix p s = Some r -> s = p ++ r.
Proof.
  unfold strip_prefix. case_bool_decide as Hp; intros; simplify_eq.
  symmetry. rewrite <- Hp at 1. apply take_drop.
Qed.

Lemma parse_scalar_rest s v r : parse_scalar s = Some (v, r) -> (length r < length s)%nat.
Proof.
  destruct s as [|c s]; [done|]. unfold parse_scalar. intros H.
  repeat (case_match; simplify_option_eq);
    repeat match goal with
    | Hs : strip_prefix _ _ = Some _ |- _ => apply strip_prefix_app, (f_equal length) in Hs
    | Hn : parse_number _ = Some _ |- _ =>
        apply parse_number_app in Hn as [Hn ?]; apply (f_equal length) in Hn
    end;
    rewrite ?length_app in *; simpl in *; lia.
Qed.

(** Every value, member list and element list ends strictly inside
    the input. *)
Lemma parse_rest f :
  (forall d s v r, parse_value None None f d s = Some (v, r) -> (length r < length s)%nat) /\
  (forall d s acc v r,
     parse_members None None f d s acc = Some (v, r) -> (length r < length s)%nat) /\
  (forall d s acc v r,
     parse_elems None None f d s acc = Some (v, r) -> (length r < length s)%nat).
Proof.
  induction f as [|f (IHv & IHm & IHe)]; [split_and!; done|].
  split_and!; intros *; cbn [parse_value parse_members parse_elems]; intros H;
    simplify_option_eq; repeat (case_match; simplify_option_eq; json_lengths);
    repeat match goal with
    | Hp : parse_value _ _ f _ _ = Some _ |- _ => apply IHv in Hp
    | Hp : parse_members _ _ f _ _ _ = Some _ |- _ => apply IHm in Hp
    | Hp : parse_elems _ _ f _ _ _ = Some _ |- _ => apply IHe in Hp
    | Hp : parse_string _ _ _ _ = Some _ |- _ => apply parse_string_rest in Hp
    | Hp : parse_scalar _ = Some _ |- _ => apply parse_scalar_rest in Hp
    | Hs : strip_prefix _ _ = Some _ |- _ => apply strip_prefix_app, (f_equal length) in Hs
    | Hn : parse_number _ = Some _ |- _ =>
        apply parse_number_app in Hn as [Hn ?]; apply (f_equal length) in Hn
    end; rewrite ?length_app in *; simpl in *; lia.
Qed.

(** The length facts of [json_lengths], and those of the parsers'
    results. *)
Ltac json_rest :=
  json_lengths;
  repeat match goal with
  | H : parse_string None _ ?s _ = Some (_, ?r) |- _ =>
      lazymatch goal with _ : (length r < length s)%nat |- _ => fail | _ => idtac end;
      pose proof (parse_string_rest _ _ _ _ _ H)
  | H : parse_value None None _ _ ?s = Some (_, ?r) |- _ =>
      lazymatch goal with _ : (length r < length s)%nat |- _ => fail | _ => idtac end;
      pose proof (proj1 (parse_rest _) _ _ _ _ H)
  end.

(** ** The fuel never cuts a parse short *)

(** [parse_string] with one unit of fuel per byte and one for the
    end never runs out: the result is that of the model whose
    exhaustion is [None], at any such fuel. *)
Lemma parse_string_fuel zs f1 f2 s acc :
  (length s < f1)%nat -> (length s < f2)%nat ->
  parse_string zs f1 s acc = parse_string None f2 s acc.
Proof.
  revert f2 s acc. induction f1 as [|f1 IH]; intros f2 s acc H1 H2; [lia|].
  destruct f2 as [|f2]; [lia|]. destruct s as [|c s]; [done|].
  pose proof (decode_rune_drop_lt c s). cbn [parse_string].
  repeat (first [ match goal with
                  | |- context [parse_string zs f1 ?x ?a] =>
                      rewrite (IH f2 x a) by (json_lengths; simpl in *; lia)
                  end
                | json_case ]);
    done.
Qed.

Section Stable.
Context (zs : option (bytes * bytes)) (zv : option (value * bytes)).

(** [parse_value] with [2 n + 1] units of fuel for [n] bytes,
    [parse_members] and [parse_elems] with [2 n + 2], never run out:
    every second call consumes a byte. *)
Lemma parse_fuel_stable f1 :
  forall f2,
  (forall d s, (2 * length s + 1 <= f1)%nat -> (2 * length s + 1 <= f2)%nat ->
     parse_value zs zv f1 d s = parse_value None None f2 d s) /\
  (forall d s acc, (2 * length s + 2 <= f1)%nat -> (2 * length s + 2 <= f2)%nat ->
     parse_members zs zv f1 d s acc = parse_members None None f2 d s acc) /\
  (forall d s acc, (2 * length s + 2 <= f1)%nat -> (2 * length s + 2 <= f2)%nat ->
     parse_elems zs zv f1 d s acc = parse_elems None None f2 d s acc).
Proof.
  induction f1 as [|f1 IH]; intros [|f2]; split_and!; intros; try lia;
    cbn [parse_value parse_members parse_elems];
    repeat (first [ match goal with
                    | |- context [parse_string zs ?f ?x ?a] =>
                        rewrite (parse_string_fuel zs f f x a) by lia
                    | |- context [parse_value zs zv f1 ?d ?x] =>
                        rewrite (proj1 (IH f2) d x) by (json_rest; lia)
                    | |- context [parse_members zs zv f1 ?d ?x ?a] =>
                        rewrite (proj1 (proj2 (IH f2)) d x a) by (json_rest; lia)
                    | |- context [parse_elems zs zv f1 ?d ?x ?a] =>
                        rewrite (proj2 (proj2 (IH f2)) d x a) by (json_rest; lia)
                    end
                  | json_case ]);
    done.
Qed.

(** The adequacy of the model's fuel (a fact about this encoding, not
    about the Go code, whose loops over a finite slice always end):
    with [2 n + 2] units or more for an input of [n] bytes, the
    parser's result is the same whatever the model would return on
    exhaustion, and equals [parse]'s, so the bound chosen for [parse]
    is never reached. *)
Lemma parse_fuel_enough data f :
  (2 * length data + 2 <= f)%nat -> parse_with zs zv f data = parse data.
Proof.
  intros H. unfold parse, parse_with.
  by rewrite (proj1 (parse_fuel_stable f (2 * length data + 2)) 0 data) by lia.
Qed.

End Stable.

End JsonDecode.

(** ** The server's JSON output read back by a JSON decoder

  The handler writes the bid with [json.NewEncoder(w).Encode]
  ([src/server/main.go] line 60), and the body is meant to be read
  as JSON.  This module composes the encoder of [JsonEncode] with the
  decoder of [JsonDecode]: decoding the encoder's output gives back
  the string, with each invalid UTF-8 byte replaced by U+FFFD (what
  Go's [string([]rune(s))] does), and exactly the string when it is
  valid UTF-8.  The proof follows the encoder rune by rune: each
  output chunk of [JsonEncode.rune_chunk] is one step of
  [JsonDecode.parse_string]. *)

Module JsonRoundtrip.
Import Utf8 JsonEncode JsonDecode.

(** ** One chunk of the encoder is one step of the decoder *)

Lemma parse_safe_byte f b t acc :
  html_safe (bval b) = true ->
  parse_string None (S f) (b :: t) acc = parse_string None f t (acc ++ [b]).
Proof.
  unfold html_safe. intros H. nbool. cbn [parse_string].
  rewrite (proj2 (N.eqb_neq (bval b) 0x22)), (proj2 (N.eqb_neq (bval b) 0x5C)),
    (proj2 (N.ltb_ge (bval b) 0x20)), (proj2 (N.ltb_lt (bval b) rune_self)) by (unfold rune_self; lia).
  done.
Qed.

(** The escapes of [appendString] for the ASCII bytes it does not copy
    (controls, quote, backslash and the HTML characters), checked
    byte by byte. *)
Lemma parse_escape_ascii f b t acc :
  (bval b <? 0x80) = true -> html_safe (bval b) = false ->
  parse_string None (S f) (escape_ascii b ++ t) acc = parse_string None f t (acc ++ [b]).
Proof. intros H1 H2. destruct b; try discriminate; reflexivity. Qed.

Lemma rune_chunk_size s : s <> [] -> snd (rune_chunk true s) = snd (decode_rune s).
Proof.
  destruct s as [|b s]; [done|]. intros _. unfold rune_chunk.
  destruct (bval b <? rune_self) eqn:Ha.
  - nbool. by rewrite decode_rune_ascii by done; case_match.
  - destruct (decode_rune (b :: s)) as [c n]. by repeat case_match.
Qed.

Lemma rune_chunk_nonempty s : s <> [] -> (0 < length (fst (rune_chunk true s)))%nat.
Proof.
  destruct s as [|b s]; [done|]. intros _.
  pose proof (decode_rune_size_pos (b :: s) ltac:(done)).
  unfold rune_chunk. destruct (bval b <? rune_self).
  - case_match; [simpl; lia|]. destruct b; simpl; lia.
  - destruct (decode_rune (b :: s)) as [c n]. simpl in *.
    repeat case_match; simpl; try lia. destruct n; [lia|]. simpl. lia.
Qed.

(** The decoder step on one chunk appends the re-encoded rune. *)
Lemma parse_chunk f s t acc :
  s <> [] ->
  parse_string None (S f) (fst (rune_chunk true s) ++ t) acc =
  parse_string None f t (acc ++ encode_rune (fst (decode_rune s))).
Proof.
  destruct s as [|b s]; [done|]. intros _. unfold rune_chunk.
  destruct (bval b <? rune_self) eqn:Ha.
  - assert (bval b < rune_self) as Hb by (by nbool).
    rewrite decode_rune_ascii by done. cbn [fst].
    rewrite encode_rune_ascii, byte_of_bval by (unfold rune_self in *; lia).
    unfold no_escape. rewrite orb_false_r. cbn [fst].
    destruct (html_safe (bval b)) eqn:Hs.
    + by apply parse_safe_byte.
    + apply parse_escape_ascii; [exact Ha | exact Hs].
  - pose proof (decode_rune_size_pos (b :: s) ltac:(done)) as Hpos.
    pose proof (decode_rune_size_le (b :: s)) as Hle.
    pose proof (decode_rune_app (b :: s) t) as Happ.
    destruct (decode_rune (b :: s)) as [c n] eqn:Hd. cbn [fst snd] in *.
    destruct ((c =? rune_error) && Nat.eqb n 1) eqn:He.
    + nbool. subst. reflexivity.
    + destruct (is_line_sep c) eqn:Hl.
      * unfold is_line_sep in Hl. apply orb_prop in Hl as [Hl|Hl]; nbool; subst; reflexivity.
      * cbn [fst]. specialize (Happ ltac:(unfold decoded_ok; cbn [fst snd];
          destruct (c =? rune_error), n as [|[|]]; simpl in *; done || lia)).
        destruct n as [|k]; [lia|]. cbn [take app] in *. nbool. cbn [parse_string].
        rewrite (proj2 (N.eqb_neq (bval b) 0x22)), (proj2 (N.eqb_neq (bval b) 0x5C)),
          (proj2 (N.ltb_ge (bval b) 0x20)), (proj2 (N.ltb_ge (bval b) rune_self)), Happ
          by (unfold rune_self in *; lia).
        cbn [drop]. rewrite drop_app_length'; [done|]. rewrite length_take. simpl in Hle. lia.
Qed.

(** ** The whole string *)

(** The decoder reads the encoder's rune-by-rune quoting up to the
    closing quote, and appends the runes of the input re-encoded. *)
Lemma parse_quote_ref fuel s t acc f :
  (length s <= fuel)%nat -> (length (quote_ref fuel true s) < f)%nat ->
  parse_string None f (quote_ref fuel true s ++ x22 :: t) acc
  = Some (acc ++ string_of_runes (runes_of fuel s), t).
Proof.
  revert s acc f. induction fuel as [|fuel IH]; intros s acc f Hs Hf;
    destruct s as [|b s']; try (simpl in Hs; lia);
    destruct f as [|f]; try (simpl in Hf; lia).
  1,2: unfold string_of_runes; simpl; by rewrite app_nil_r.
  pose proof (rune_chunk_size (b :: s') ltac:(done)) as Hn.
  pose proof (rune_chunk_nonempty (b :: s') ltac:(done)) as Hne.
  pose proof (decode_rune_size_pos (b :: s') ltac:(done)) as Hpos.
  cbn [quote_ref runes_of] in *.
  destruct (rune_chunk true (b :: s')) as [o n] eqn:Hc. cbn [fst snd] in *.
  rewrite <- app_assoc.
  replace o with (fst (rune_chunk true (b :: s'))) by (by rewrite Hc).
  rewrite parse_chunk by done.
  destruct (decode_rune (b :: s')) as [c n'] eqn:Hd. cbn [fst snd] in *. subst n'.
  rewrite IH; cycle 1.
  - rewrite length_drop. simpl in *. lia.
  - rewrite length_app in Hf. lia.
  - f_equal. f_equal. unfold string_of_runes. rewrite fmap_cons. cbn [mjoin list_join].
    by rewrite app_assoc.
Qed.

(** Decoding the encoder's output gives the runes of the input,
    re-encoded. *)
Lemma parse_encode_runes s :
  parse (encode_string s) = Some (JString (string_of_runes (runes s))).
Proof.
  unfold encode_string, append_string.
  rewrite append_loop_spec, slice_empty by lia.
  unfold parse, parse_with. rewrite drop_0.
  set (q := quote_ref (length s) true s).
  cbn [app]. rewrite <- (app_assoc q [x22] [x0a]). cbn [app].
  destruct (2 * length (x22 :: q ++ [x22; x0a]) + 2)%nat as [|k] eqn:Ek; [lia|].
  cbn -[parse_string length].
  unfold q. rewrite parse_quote_ref by (rewrite ?length_app; simpl; lia).
  reflexivity.
Qed.

(** C23: a string of valid UTF-8, written by [json.NewEncoder(w).Encode]
    as the server writes the bid, is read back by the JSON decoder as
    exactly that string: the encoder's escapes (quote, backslash,
    controls, the HTML characters, U+2028 and U+2029) all decode to
    the bytes they stand for. *)
Theorem parse_encode_valid s :
  valid s = true -> parse (encode_string s) = Some (JString s).
Proof.
  intros H. rewrite parse_encode_runes. unfold runes.
  by rewrite string_of_runes_valid by (done || lia).
Qed.

End JsonRoundtrip.
