(* ===== verification/Quote.v ===== *)
(** * The quote: [CotacaoUSDBRL] and its decoding by [json.Unmarshal]

  [src/server/main.go] lines 17-35 declare the upstream payload
  [CotacaoUSDBRL] (one field [Usdbrl], tag ["USDBRL"], holding eleven
  string fields with their JSON tags) and the unused [Cot].  Line 84
  decodes the upstream body into a zero [CotacaoUSDBRL] with
  [json.Unmarshal].  After the syntax check ([JsonDecode.parse]) the
  decoder of [encoding/json/decode.go] walks the value into the
  struct:
  - an object key selects the field whose tag equals it up to
    [foldName] (ASCII upper-casing plus Unicode simple folding; the
    only non-ASCII runes that fold onto ASCII letters are U+017F,
    which folds to [S], and U+212A, which folds to [K]); unknown
    keys are skipped; a repeated key decodes again into the same
    field, so the last one wins and a repeated ["USDBRL"] object
    merges into the struct already decoded;
  - a JSON string sets a string field; [null] leaves a field or the
    struct unchanged; any other value records an
    [UnmarshalTypeError] (the first error is the one returned) and
    leaves the target unchanged; decoding continues. *)

From S2P Require Import Prelude Utf8 JsonDecode.

Module Quote.
Import JsonDecode.

(** The anonymous struct of field [Usdbrl]. *)
Record usdbrl := mk_usdbrl {
  Code : bytes; Codein : bytes; Name : bytes; High : bytes; Low : bytes;
  VarBid : bytes; PctChange : bytes; Bid : bytes; Ask : bytes;
  Timestamp : bytes; CreateDate : bytes }.

Record CotacaoUSDBRL := mk_cotacao { Usdbrl : usdbrl }.

(** [type Cot struct { Bid string }]: declared, never used. *)
Record Cot := mk_cot { cot_Bid : bytes }.

Definition zero_usdbrl : usdbrl := mk_usdbrl [] [] [] [] [] [] [] [] [] [] [].
Definition zero_cotacao : CotacaoUSDBRL := mk_cotacao zero_usdbrl.

Inductive field :=
| FCode | FCodein | FName | FHigh | FLow | FVarBid | FPctChange
| FBid | FAsk | FTimestamp | FCreateDate.

(** In declaration order, as the decoder's field list has them. *)
Definition fields : list field :=
  [FCode; FCodein; FName; FHigh; FLow; FVarBid; FPctChange; FBid; FAsk;
   FTimestamp; FCreateDate].

(** The [json:"..."] tags. *)
Definition tag (f : field) : bytes :=
  match f with
  | FCode => bs "code" | FCodein => bs "codein" | FName => bs "name"
  | FHigh => bs "high" | FLow => bs "low" | FVarBid => bs "varBid"
  | FPctChange => bs "pctChange" | FBid => bs "bid" | FAsk => bs "ask"
  | FTimestamp => bs "timestamp" | FCreateDate => bs "create_date"
  end.

Definition get_field (f : field) (u : usdbrl) : bytes :=
  match f with
  | FCode => Code u | FCodein => Codein u | FName => Name u | FHigh => High u
  | FLow => Low u | FVarBid => VarBid u | FPctChange => PctChange u
  | FBid => Bid u | FAsk => Ask u | FTimestamp => Timestamp u
  | FCreateDate => CreateDate u
  end.

Definition set_field (f : field) (x : bytes) (u : usdbrl) : usdbrl :=
  let 'mk_usdbrl c ci n h l vb pc b a ts cd := u in
  match f with
  | FCode => mk_usdbrl x ci n h l vb pc b a ts cd
  | FCodein => mk_usdbrl c x n h l vb pc b a ts cd
  | FName => mk_usdbrl c ci x h l vb pc b a ts cd
  | FHigh => mk_usdbrl c ci n x l vb pc b a ts cd
  | FLow => mk_usdbrl c ci n h x vb pc b a ts cd
  | FVarBid => mk_usdbrl c ci n h l x pc b a ts cd
  | FPctChange => mk_usdbrl c ci n h l vb x b a ts cd
  | FBid => mk_usdbrl c ci n h l vb pc x a ts cd
  | FAsk => mk_usdbrl c ci n h l vb pc b x ts cd
  | FTimestamp => mk_usdbrl c ci n h l vb pc b a x cd
  | FCreateDate => mk_usdbrl c ci n h l vb pc b a ts x
  end.

(** ** Key matching: [foldName] *)

Definition ascii_upper (c : byte) : byte :=
  if (0x61 <=? bval c)%N && (bval c <=? 0x7A)%N then byte_of (bval c - 0x20) else c.

(** [foldName(key)] when it is ASCII, [None] when it has a rune
    whose fold is not ASCII (such a key matches no tag, all tags
    being ASCII). *)
Fixpoint fold_ascii (s : bytes) : option bytes :=
  match s with
  | [] => Some []
  | xc5 :: xbf :: r => cons x53 <$> fold_ascii r            (* U+017F *)
  | xe2 :: x84 :: xaa :: r => cons x4b <$> fold_ascii r     (* U+212A *)
  | c :: r => if (bval c <? Utf8.rune_self)%N then cons (ascii_upper c) <$> fold_ascii r
              else None
  end.

Definition key_matches (key name : bytes) : bool :=
  match fold_ascii key, fold_ascii name with
  | Some k, Some n => bool_decide (k = n)
  | _, _ => false
  end.

(** The field a key selects. *)
Definition find_field (key : bytes) : option field :=
  List.find (fun f => key_matches key (tag f)) fields.

Inductive decode_error := SyntaxError | UnmarshalTypeError.

(** [d.saveError]: keep the first error. *)
Definition save_error (old new : option decode_error) : option decode_error :=
  match old with Some _ => old | None => new end.

(** [d.value] into a string: the new content and the error. *)
Definition store_string (v : value) (old : bytes) : bytes * option decode_error :=
  match v with
  | JString s => (s, None)
  | JNull => (old, None)
  | _ => (old, Some UnmarshalTypeError)
  end.

(** [d.object] into the [Usdbrl] struct, member by member. *)
Fixpoint decode_members (kvs : list (bytes * value)) (u : usdbrl)
    (err : option decode_error) : usdbrl * option decode_error :=
  match kvs with
  | [] => (u, err)
  | (k, v) :: rest =>
      match find_field k with
      | Some f => let '(x, e) := store_string v (get_field f u) in
                  decode_members rest (set_field f x u) (save_error err e)
      | None => decode_members rest u err
      end
  end.

(** [d.value] into the [Usdbrl] struct. *)
Definition decode_usdbrl (v : value) (u : usdbrl) (err : option decode_error)
    : usdbrl * option decode_error :=
  match v with
  | JObject kvs => decode_members kvs u err
  | JNull => (u, err)
  | _ => (u, save_error err (Some UnmarshalTypeError))
  end.

(** [d.object] into [CotacaoUSDBRL]: only keys folding to [USDBRL] count. *)
Fixpoint decode_top_members (kvs : list (bytes * value)) (u : usdbrl)
    (err : option decode_error) : usdbrl * option decode_error :=
  match kvs with
  | [] => (u, err)
  | (k, v) :: rest =>
      if key_matches k (bs "USDBRL")
      then let '(u', err') := decode_usdbrl v u err in decode_top_members rest u' err'
      else decode_top_members rest u err
  end.

Definition decode_cotacao (v : value) (c : CotacaoUSDBRL)
    : CotacaoUSDBRL * option decode_error :=
  match v with
  | JObject kvs => let '(u, err) := decode_top_members kvs (Usdbrl c) None in
                   (mk_cotacao u, err)
  | JNull => (c, None)
  | _ => (c, Some UnmarshalTypeError)
  end.

(** [json.Unmarshal(data, &c)]: the struct afterwards and the error. *)
Definition unmarshal (data : bytes) (c : CotacaoUSDBRL)
    : CotacaoUSDBRL * option decode_error :=
  match parse data with
  | None => (c, Some SyntaxError)
  | Some v => decode_cotacao v c
  end.

(** ** Properties of the decoding *)

#[export] Instance field_eq_dec : EqDecision field.
Proof. solve_decision. Defined.

Lemma get_set_same f x u : get_field f (set_field f x u) = x.
Proof. destruct u, f; reflexivity. Qed.

Lemma get_set_other f g x u : f <> g -> get_field g (set_field f x u) = get_field g u.
Proof. destruct u, f, g; simpl; congruence. Qed.

(** The value a member list leaves in field [g]: the last string
    among the members that select [g], or the old value. *)
Definition last_string_for (g : field) (kvs : list (bytes * value)) (old : bytes) : bytes :=
  fold_left (fun acc kv =>
    if bool_decide (find_field kv.1 = Some g)
    then match kv.2 with JString s => s | _ => acc end
    else acc) kvs old.

Lemma store_string_fst v old :
  fst (store_string v old) = match v with JString s => s | _ => old end.
Proof. by destruct v. Qed.

(** C21: field by field, decoding the members of the [USDBRL] object
    keeps the last string given under a key selecting the field;
    [null] and values of other types leave it alone. *)
Lemma decode_members_field g kvs u err :
  get_field g (fst (decode_members kvs u err)) = last_string_for g kvs (get_field g u).
Proof.
  revert u err. induction kvs as [|[k v] kvs IH]; intros u err; [done|].
  simpl. unfold last_string_for in *. simpl.
  destruct (find_field k) as [f|] eqn:Ef.
  - destruct (store_string v (get_field f u)) as [x e] eqn:Es. rewrite IH.
    f_equal. destruct (decide (f = g)) as [->|Hne].
    + pose proof (store_string_fst v (get_field g u)) as Hx. rewrite Es in Hx.
      by rewrite get_set_same, bool_decide_true.
    + rewrite get_set_other, bool_decide_false by congruence. done.
  - by rewrite IH.
Qed.

(** C20: a body that parses to an object with no key selecting the
    [USDBRL] field (an upstream error body, for instance) leaves the
    quote as it was and reports no error: [GetApiCotacao] then
    returns the zero quote as a success. *)
Theorem unmarshal_without_usdbrl data kvs c :
  parse data = Some (JObject kvs) ->
  Forall (fun kv => key_matches kv.1 (bs "USDBRL") = false) kvs ->
  unmarshal data c = (c, None).
Proof.
  intros Hp Hf. unfold unmarshal. rewrite Hp. simpl. clear Hp.
  assert (decode_top_members kvs (Usdbrl c) None = (Usdbrl c, None)) as ->.
  { induction Hf as [|[k v] kvs Hk _ IH]; [done|]. cbn [decode_top_members fst] in *. rewrite Hk. exact IH. }
  by destruct c.
Qed.

End Quote.
