(* ===== verification/Store.v ===== *)
(** * The local store as the persistence code sees it

  [GravarDados] ([src/server/main.go] lines 92-106) runs two SQL
  statements on [./sqlite-database.db]: [CREATE TABLE IF NOT EXISTS
  cotacao (...)] ([createTable], lines 108-130) and [INSERT INTO
  cotacao(...) VALUES (?, ...)] ([insertCotacao], lines 132-164).
  [SqlStore] is what the server relies on of the engine: the two
  statements, whether the table exists, and the quotes stored, in
  insertion order.  [SqlStoreLaws] is the contract: table creation
  is idempotent and keeps the rows, an insert appends exactly its
  quote, an insert without the table fails.  [Sqlite.v] implements
  the contract; the server's theorems use only the contract. *)

From S2P Require Import Prelude Quote.

Class SqlStore (D : Type) := {
store_create : D -> D;
store_insert : Quote.usdbrl -> D -> option D;
store_has_table : D -> bool;
store_rows : D -> list Quote.usdbrl
}.

Class SqlStoreLaws (D : Type) `{SqlStore D} := {
create_idem d : store_create (store_create d) = store_create d;
create_has_table d : store_has_table (store_create d) = true;
create_rows d : store_rows (store_create d) = store_rows d;
create_existing d : store_has_table d = true -> store_create d = d;
insert_rows q d d' :
  store_insert q d = Some d' -> store_rows d' = store_rows d ++ [q];
insert_has_table q d d' :
  store_insert q d = Some d' -> store_has_table d' = true;
insert_no_table q d : store_has_table d = false -> store_insert q d = None
}.

#[export] Hint Resolve create_has_table insert_has_table : go_model.
#[export] Hint Rewrite @create_idem @create_rows @create_has_table : go_rw.
