(* ===== verification/Sqlite.v ===== *)
(** * The SQLite engine on table [cotacao]

  The semantics of the two statements of [createTable] and
  [insertCotacao] ([src/server/main.go] lines 108-164) on a SQLite
  database.  [idCotacao] is [INTEGER PRIMARY KEY AUTOINCREMENT]: the
  new row gets one more than the largest rowid the table has ever
  held (kept in [sqlite_sequence], here [seq]) or holds now; when
  that largest rowid is the signed 64-bit maximum the insert fails
  with [SQLITE_FULL].  The eleven TEXT columns hold the eleven fields
  of [Usdbrl] in order.  [Sqlite.wf] is the table invariant; the
  instance of [SqlStore] is the refinement of the abstract
  append-only log by the table. *)

From Stdlib Require Import Sorted.
From S2P Require Import Prelude Quote Store.

Open Scope Z_scope.

Module Sqlite.

Record table := mk_table { rows : list (Z * Quote.usdbrl); seq : Z }.
Record db := mk_db { cotacao : option table }.

(** The largest rowid, [9223372036854775807]. *)
Definition max_rowid : Z := 2 ^ 63 - 1.

Definition empty_db : db := mk_db None.

Definition max_id (rs : list (Z * Quote.usdbrl)) : Z :=
  fold_right (fun r m => Z.max (fst r) m) 0 rs.

(** [CREATE TABLE IF NOT EXISTS cotacao (...)]. *)
Definition create_table (d : db) : db :=
  match cotacao d with
  | Some _ => d
  | None => mk_db (Some (mk_table [] 0))
  end.

(** The AUTOINCREMENT choice of the new rowid. *)
Definition next_rowid (t : table) : option Z :=
  let m := Z.max (seq t) (max_id (rows t)) in
  if m <? max_rowid then Some (m + 1) else None.

(** [INSERT INTO cotacao(Code, ..., CreateDate) VALUES (...)];
    [None] when the table is missing or the rowids are exhausted. *)
Definition insert (q : Quote.usdbrl) (d : db) : option db :=
  t ← cotacao d;
  id ← next_rowid t;
  Some (mk_db (Some (mk_table (rows t ++ [(id, q)]) id))).

Definition has_table (d : db) : bool := bool_decide (is_Some (cotacao d)).

Definition contents (d : db) : list Quote.usdbrl :=
  match cotacao d with Some t => map snd (rows t) | None => [] end.

(** The table invariant: identifiers strictly increase in insertion
    order, are positive, and are bounded by the sequence, itself a
    64-bit rowid. *)
Definition wf_table (t : table) : Prop :=
  StronglySorted Z.lt (map fst (rows t)) /\
  Forall (fun id => 1 <= id <= seq t) (map fst (rows t)) /\
  0 <= seq t <= max_rowid.

Definition wf (d : db) : Prop :=
  match cotacao d with Some t => wf_table t | None => True end.


(** ** The invariant *)

Lemma strongly_sorted_snoc (l : list Z) x :
  StronglySorted Z.lt l -> Forall (fun y => y < x) l -> StronglySorted Z.lt (l ++ [x]).
Proof.
  induction l as [|y l IH]; simpl; intros Hs Hf.
  - repeat constructor.
  - inversion Hs as [|? ? Hs' Hy]; subst. inversion Hf as [|? ? Hyx Hf']; subst.
    constructor; [by apply IH|]. apply Forall_app. split; [done|]. by constructor.
Qed.

Lemma max_id_le rs s :
  0 <= s -> Forall (fun id => id <= s) (map fst rs) -> max_id rs <= s.
Proof.
  induction rs as [|[id q] rs IH]; simpl; intros H0 Hf; [done|].
  inversion Hf; subst. specialize (IH H0 ltac:(done)). lia.
Qed.

Lemma wf_next_rowid t :
  wf_table t -> next_rowid t = if seq t <? max_rowid then Some (seq t + 1) else None.
Proof.
  intros (_ & Hf & Hs). unfold next_rowid.
  assert (max_id (rows t) <= seq t).
  { apply max_id_le; [lia|]. eapply Forall_impl; [exact Hf|]. simpl. lia. }
  by replace (Z.max (seq t) (max_id (rows t))) with (seq t) by lia.
Qed.

Lemma wf_empty : wf empty_db.
Proof. done. Qed.

Lemma wf_create_table d : wf d -> wf (create_table d).
Proof.
  unfold wf, create_table. destruct (cotacao d) eqn:E; simpl; [by rewrite E|].
  intros _. unfold wf_table; simpl. split; [constructor|]. split; [constructor|].
  unfold max_rowid. lia.
Qed.

(** An insert keeps the invariant. *)
Lemma wf_insert q d d' : wf d -> insert q d = Some d' -> wf d'.
Proof.
  unfold wf, insert. destruct (cotacao d) as [t|]; simpl; [|done].
  intros Ht. rewrite (wf_next_rowid t Ht).
  destruct (seq t <? max_rowid) eqn:E; simpl; [|done].
  intros [= <-]. simpl. apply Z.ltb_lt in E.
  destruct Ht as (Hs & Hf & Hb). unfold wf_table; simpl.
  rewrite map_app. simpl. split; [|split].
  - apply strongly_sorted_snoc; [done|]. eapply Forall_impl; [exact Hf|]. simpl. lia.
  - apply Forall_app. split; [|repeat constructor; lia].
    eapply Forall_impl; [exact Hf|]. simpl. lia.
  - lia.
Qed.

(** C18: on a well-formed table the inserted row gets the next
    sequence number, larger than every identifier the table holds:
    identifiers are never reused. *)
Lemma insert_fresh_id q d d' t :
  wf d -> cotacao d = Some t -> insert q d = Some d' ->
  cotacao d' = Some (mk_table (rows t ++ [(seq t + 1, q)]) (seq t + 1)) /\
  Forall (fun old => old < seq t + 1) (map fst (rows t)).
Proof.
  unfold wf, insert. intros Hwf Ht. rewrite Ht in Hwf |- *. simpl.
  rewrite (wf_next_rowid t Hwf). destruct (seq t <? max_rowid); simpl; [|done].
  intros [= <-]. split; [done|].
  destruct Hwf as (_ & Hf & _). eapply Forall_impl; [exact Hf|]. simpl. lia.
Qed.

(** C19: with the table present, an insert fails exactly when the
    sequence has reached the largest 64-bit rowid. *)
Lemma insert_full q d t :
  wf d -> cotacao d = Some t -> (insert q d = None <-> seq t = max_rowid).
Proof.
  unfold wf, insert. intros Hwf Ht. rewrite Ht in Hwf |- *. simpl.
  rewrite (wf_next_rowid t Hwf). destruct Hwf as (_ & _ & Hb).
  destruct (seq t <? max_rowid) eqn:E; simpl.
  - apply Z.ltb_lt in E. split; [done|lia].
  - apply Z.ltb_ge in E. split; [lia|done].
Qed.

End Sqlite.

(** ** The store contract *)

#[export] Instance sqlite_store : SqlStore Sqlite.db := {|
store_create := Sqlite.create_table;
store_insert := Sqlite.insert;
store_has_table := Sqlite.has_table;
store_rows := Sqlite.contents
|}.

#[export] Instance sqlite_store_laws : SqlStoreLaws Sqlite.db.
Proof.
Import Sqlite.
split; simpl.
- intros d. unfold create_table. destruct (cotacao d) eqn:E; simpl; rewrite ?E; done.
- intros d. unfold has_table, create_table. destruct (cotacao d) eqn:E; simpl; rewrite ?E; done.
- intros d. unfold contents, create_table. destruct (cotacao d) eqn:E; simpl; rewrite ?E; done.
- intros d. unfold has_table, create_table. destruct (cotacao d) eqn:E; simpl; rewrite ?E; done.
- intros q d d'. unfold insert, contents. destruct (cotacao d) as [t|]; simpl; [|done].
  destruct (next_rowid t); simpl; [|done]. intros [= <-]. simpl. by rewrite map_app.
- intros q d d'. unfold insert, has_table. destruct (cotacao d) as [t|]; simpl; [|done].
  destruct (next_rowid t); simpl; [|done]. by intros [= <-].
- intros q d. unfold has_table, insert. destruct (cotacao d) eqn:E; simpl; rewrite ?E; done.
Qed.


#[export] Hint Resolve Sqlite.wf_create_table Sqlite.wf_insert Sqlite.wf_empty : go_model.
