(* ===== verification/Server.v ===== *)
(** * The quote server: [src/server/main.go]

  One request to [GET /] runs the handler [cotacao] (lines 44-61):
  a 210 ms deadline context, the upstream fetch [AcessoApiCotacao]
  (lines 63-71) and [GetApiCotacao] (lines 73-90), the persistence
  [GravarDados] (lines 92-106) with [createTable] and [insertCotacao]
  (lines 108-164), and the response.  The handler is a [prog] over
  [world]: the clock, the store (any [SqlStore]), the lines written to
  the standard error stream, and the [http.ResponseWriter].  What the
  outside world does is an input [request_env]: the scheduling delay
  before the deadline check, the upstream's answer, and the storage
  faults of the four SQL calls. *)

From S2P Require Import Prelude GoContext Utf8 JsonEncode JsonDecode Quote Store.

Open Scope Z_scope.

Module Server.

(** The lines the server logs ([log.Println], [fmt.Fprintf(os.Stderr, ...)],
    [log.Fatal]). *)
Inductive log_line :=
| LConsumeError      (* line 51: "Erro ao consumir API" *)
| LApiTimeout        (* line 66: "Timeout máximo para chamar API ultrapassado" *)
| LRequestError      (* line 76: "Erro ao fazer requisição" *)
| LReadError         (* line 81: "Erro ao ler resposta" *)
| LParseError        (* line 86: "Erro ao fazer parse da resposta" *)
| LApiOk             (* line 88: "Consulta API com sucesso" *)
| LPersistTimeout    (* line 95: "Timeout máximo para persistir dados ultrapassado" *)
| LPersistOk         (* line 104: "Gravacao de dados realizado com sucesso" *)
| LFatal.            (* lines 126, 148, 163: log.Fatal / log.Fatalln *)

(** The [http.ResponseWriter] of the request: header map, status
    once written, body. *)
Record writer := mk_writer {
  w_header : gmap bytes bytes; w_status : option Z; w_body : bytes }.

Definition empty_writer : writer := mk_writer ∅ None [].

Definition header_set (k v : bytes) (w : writer) : writer :=
  mk_writer (<[k := v]> (w_header w)) (w_status w) (w_body w).
Definition header_del (k : bytes) (w : writer) : writer :=
  mk_writer (delete k (w_header w)) (w_status w) (w_body w).
(** [WriteHeader(code)]: only the first call counts. *)
Definition write_header (code : Z) (w : writer) : writer :=
  match w_status w with
  | None => mk_writer (w_header w) (Some code) (w_body w)
  | Some _ => w
  end.
(** [Write(b)]: an implicit [WriteHeader(200)] first. *)
Definition write (b : bytes) (w : writer) : writer :=
  let w := write_header 200 w in mk_writer (w_header w) (w_status w) (w_body w ++ b).

Section WithStore.
Context {D : Type} `{SqlStore D}.

Record world := mk_world {
  w_clock : Z; w_db : D; w_log : list log_line; w_resp : writer }.

#[export] Instance world_clock : HasClock world := w_clock.

Definition log (l : log_line) : prog world unit :=
  modify (fun s => mk_world (w_clock s) (w_db s) (w_log s ++ [l]) (w_resp s)).
Definition sleep (d : Z) : prog world unit :=
  modify (fun s => mk_world (w_clock s + d) (w_db s) (w_log s) (w_resp s)).
Definition set_db (d : D) : prog world unit :=
  modify (fun s => mk_world (w_clock s) d (w_log s) (w_resp s)).
Definition on_writer (f : writer -> writer) : prog world unit :=
  modify (fun s => mk_world (w_clock s) (w_db s) (w_log s) (f (w_resp s))).
Definition fatal {A} : prog world A := (log LFatal ;; stop (Exited 1))%go.

End WithStore.
Arguments world D : clear implicits.

(** ** The outside world of one request *)

(** What [http.Get] of the upstream URL does: a transport error, or a
    response after [latency] ms whose body [io.ReadAll] returns
    ([body], with [read_failed] when the read stopped on an error,
    [body] being what was read).  The status code is not part of
    it: the code never looks at it. *)
Inductive upstream :=
| UpTransportError
| UpResponse (latency : Z) (body : bytes) (read_failed : bool).

(** Failures of the SQL calls that do not come from the statements
    themselves (I/O errors, a locked database). *)
Record db_faults := mk_faults {
  f_prepare_create : bool; f_exec_create : bool;
  f_prepare_insert : bool; f_exec_insert : bool }.

Definition no_faults : db_faults := mk_faults false false false false.

Record request_env := mk_env {
  env_delay : Z;          (* scheduling delay before the deadline check *)
  env_upstream : upstream;
  env_faults : db_faults }.

Section Handler.
Context {D : Type} `{SqlStore D}.
Local Open Scope go_scope.

(** [GetApiCotacao()]: never returns an error.  On a transport error
    [req] is nil and [defer req.Body.Close()] dereferences it: the
    goroutine panics after logging. *)
Definition GetApiCotacao (up : upstream)
    : prog (world D) (option Quote.CotacaoUSDBRL * option GoContext.ctx_err) :=
  match up with
  | UpTransportError => log LRequestError ;; stop Panicked
  | UpResponse latency body read_failed =>
      sleep latency ;;
      (if read_failed then log LReadError else ret tt) ;;
      let '(data, err) := Quote.unmarshal body Quote.zero_cotacao in
      (match err with Some _ => log LParseError | None => ret tt end) ;;
      log LApiOk ;;
      ret (Some data, None)
  end.

(** [AcessoApiCotacao(ctx)]. *)
Definition AcessoApiCotacao (ctx : GoContext.ctx) (up : upstream)
    : prog (world D) (option Quote.CotacaoUSDBRL * option GoContext.ctx_err) :=
  GoContext.select_done ctx
    (log LApiTimeout ;; ret (None, Some GoContext.DeadlineExceeded))
    (GetApiCotacao up).

(** [createTable(db)]: a failed [Prepare] is fatal; the error of
    [statement.Exec()] is ignored. *)
Definition createTable (f : db_faults) : prog (world D) unit :=
  if f_prepare_create f then fatal
  else if f_exec_create f then ret tt
  else s <- get ;; set_db (store_create (w_db s)).

(** [insertCotacao(db, cotacao)]: [Prepare] fails on a fault or when
    the table is missing; [Exec] fails on a fault or when the engine
    refuses the row; both are fatal. *)
Definition insertCotacao (f : db_faults) (q : Quote.usdbrl) : prog (world D) unit :=
  s <- get ;;
  if f_prepare_insert f || negb (store_has_table (w_db s)) then fatal
  else if f_exec_insert f then fatal
  else match store_insert q (w_db s) with
       | Some d' => set_db d'
       | None => fatal
       end.

(** [GravarDados(cotacao, ctx)]. *)
Definition GravarDados (c : Quote.CotacaoUSDBRL) (ctx : GoContext.ctx) (f : db_faults)
    : prog (world D) unit :=
  GoContext.select_done ctx
    (log LPersistTimeout)
    (createTable f ;; insertCotacao f (Quote.Usdbrl c) ;; log LPersistOk).

Definition content_type : bytes := bs "Content-Type".

(** [http.Error(w, msg, code)]. *)
Definition http_error (msg : bytes) (code : Z) : prog (world D) unit :=
  on_writer (fun w =>
    let w := header_del (bs "Content-Length") w in
    let w := header_set content_type (bs "text/plain; charset=utf-8") w in
    let w := header_set (bs "X-Content-Type-Options") (bs "nosniff") w in
    let w := write_header code w in
    write (msg ++ [x0a]) w).

Definition consume_error_msg : bytes := bs "Erro ao consumir API".

(** The handler [cotacao(w, r)]. *)
Definition cotacao (env : request_env) : prog (world D) unit :=
  s <- get ;;
  let ctx := GoContext.with_timeout (w_clock s) GoContext.server_timeout in
  sleep (env_delay env) ;;
  bind (AcessoApiCotacao ctx (env_upstream env)) (fun '(c, err) =>
  match err, c with
  | Some _, _ => log LConsumeError ;; http_error consume_error_msg 408
  | None, None => stop Panicked             (* nil dereference *)
  | None, Some c =>
      GravarDados c ctx (env_faults env) ;;
      on_writer (header_set content_type (bs "application/json")) ;;
      on_writer (write_header 200) ;;
      on_writer (write (JsonEncode.encode_string (Quote.Bid (Quote.Usdbrl c))))
  end).

End Handler.

(** ** One request, as the client sees it *)

(** What reaches the client: a response, or a connection closed
    without one (net/http recovers a handler's panic and closes the
    connection; [log.Fatal] ends the process). *)
Inductive http_outcome :=
| HttpResponse (status : Z) (header : gmap bytes bytes) (body : bytes)
| ConnectionClosed.

(** The server process: serving with its store, or exited. *)
Inductive proc (D : Type) := Serving (db : D) | Crashed.
Arguments Serving {D} db.
Arguments Crashed {D}.

Record served (D : Type) := mk_served {
  sv_outcome : http_outcome; sv_proc : proc D; sv_log : list log_line; sv_end : Z }.
Arguments mk_served {D}.
Arguments sv_outcome {D}. Arguments sv_proc {D}. Arguments sv_log {D}. Arguments sv_end {D}.

(** A handler that returns without writing answers 200 with an empty body. *)
Definition response_of (w : writer) : http_outcome :=
  HttpResponse (default 200 (w_status w)) (w_header w) (w_body w).

Section Serve.
Context {D : Type} `{SqlStore D}.

(** [http.HandleFunc("/", cotacao)] and [http.ListenAndServe]
    (lines 37-42): one request arriving at time [t]. *)
Definition serve (t : Z) (env : request_env) (db : D) : served D :=
  let '(r, s) := cotacao env (mk_world t db [] empty_writer) in
  match r with
  | Ok _ => mk_served (response_of (w_resp s)) (Serving (w_db s)) (w_log s) (w_clock s)
  | Halted Panicked => mk_served ConnectionClosed (Serving (w_db s)) (w_log s) (w_clock s)
  | Halted (Exited _) => mk_served ConnectionClosed Crashed (w_log s) (w_clock s)
  end.

(** The process takes requests one after the other. *)
Inductive server_step : proc D -> proc D -> Prop :=
| step_request t env db : server_step (Serving db) (sv_proc (serve t env db)).

Inductive reachable (p0 : proc D) : proc D -> Prop :=
| reach_init : reachable p0 p0
| reach_step p p' : reachable p0 p -> server_step p p' -> reachable p0 p'.

End Serve.

(** ** Proofs *)

Section Proofs.
Context {D : Type} `{SqlStoreLaws D}.

(** *** Store evolution, by composition

    [evolve n d d']: [d'] is reached from [d] by CREATE TABLE
    statements and at most [n] successful inserts.  [Grows n c]:
    whatever the state, [c] evolves the store so. *)
Inductive evolve : nat -> D -> D -> Prop :=
| ev_refl n d : evolve n d d
| ev_create n d d' : evolve n (store_create d) d' -> evolve n d d'
| ev_insert n q d d1 d' : store_insert q d = Some d1 -> evolve n d1 d' -> evolve (S n) d d'.

Definition grows_by (n : nat) (s s' : world D) : Prop := evolve n (w_db s) (w_db s').

Definition Grows {A} (n : nat) (c : prog (world D) A) : Prop :=
  forall s, grows_by n s (snd (c s)).

Lemma evolve_mono n m d d' : (n <= m)%nat -> evolve n d d' -> evolve m d d'.
Proof.
  intros Hle Hev. revert m Hle. induction Hev; intros m Hle.
  - constructor.
  - apply ev_create. auto.
  - destruct m as [|m]; [lia|]. eapply ev_insert; [done|]. apply IHHev. lia.
Qed.

Lemma evolve_trans n1 n2 d1 d2 d3 :
  evolve n1 d1 d2 -> evolve n2 d2 d3 -> evolve (n1 + n2) d1 d3.
Proof.
  induction 1; intros Hnext.
  - eapply evolve_mono; [|exact Hnext]. lia.
  - apply ev_create. auto.
  - eapply ev_insert; eauto.
Qed.

(** The stored quotes only grow, by at most [n]. *)
Lemma evolve_rows n d d' :
  evolve n d d' -> exists l, store_rows d' = store_rows d ++ l /\ (length l <= n)%nat.
Proof.
  induction 1 as [n d|n d d' _ (l & E & L)|n q d d1 d' Hins _ (l & E & L)].
  - exists []. split; [by rewrite app_nil_r|simpl; lia].
  - exists l. split; [by rewrite E, create_rows|done].
  - exists (q :: l). split; [|simpl; lia].
    by rewrite E, (insert_rows _ _ _ Hins), <- app_assoc.
Qed.

(** A property of stores kept by both statements is kept. *)
Lemma evolve_inv (P : D -> Prop) n d d' :
  (forall d, P d -> P (store_create d)) ->
  (forall q d d1, P d -> store_insert q d = Some d1 -> P d1) ->
  evolve n d d' -> P d -> P d'.
Proof. intros Hc Hi. induction 1; eauto. Qed.

Lemma grows_by_refl s : grows_by 0 s s.
Proof. constructor. Qed.

Lemma grows_by_trans n1 n2 s1 s2 s3 :
  grows_by n1 s1 s2 -> grows_by n2 s2 s3 -> grows_by (n1 + n2) s1 s3.
Proof. apply evolve_trans. Qed.

Lemma Grows_weaken {A} n m (c : prog (world D) A) :
  (n <= m)%nat -> Grows n c -> Grows m c.
Proof. intros Hle Hc s. eapply evolve_mono; [exact Hle|apply Hc]. Qed.

Lemma Grows_ret {A} (a : A) : Grows 0 (ret a).
Proof. intros s. apply grows_by_refl. Qed.

Lemma Grows_stop {A} h : Grows 0 (@stop _ A h).
Proof. intros s. apply grows_by_refl. Qed.

Lemma Grows_bind {A B} n1 n2 (c : prog (world D) A) (k : A -> prog (world D) B) :
  Grows n1 c -> (forall a, Grows n2 (k a)) -> Grows (n1 + n2) (bind c k).
Proof.
  intros Hc Hk s. unfold bind. specialize (Hc s).
  destruct (c s) as [[a|h] s1]; simpl in *.
  - eapply grows_by_trans; [exact Hc|]. apply Hk.
  - eapply evolve_mono; [|exact Hc]. lia.
Qed.

Lemma Grows_get {A} n (k : world D -> prog (world D) A) :
  (forall s, Grows n (k s)) -> Grows n (bind get k).
Proof. intros Hk s. apply (Hk s). Qed.

Lemma Grows_modify f : (forall s, w_db (f s) = w_db s) -> Grows 0 (modify f).
Proof. intros Hf s. unfold grows_by, modify. simpl. rewrite (Hf s). constructor. Qed.

Lemma Grows_select {A} n ctx (a b : prog (world D) A) :
  Grows n a -> Grows n b -> Grows n (GoContext.select_done ctx a b).
Proof. intros Ha Hb s. unfold GoContext.select_done. by destruct (GoContext.done_at _ _). Qed.

Lemma Grows_log l : Grows 0 (log l).
Proof. by apply Grows_modify. Qed.

Lemma Grows_sleep d : Grows 0 (sleep d).
Proof. by apply Grows_modify. Qed.

Lemma Grows_on_writer f : Grows 0 (on_writer f).
Proof. by apply Grows_modify. Qed.

Lemma Grows_fatal {A} : Grows 0 (fatal (A := A)).
Proof. apply (Grows_bind 0 0); [apply Grows_log|intros; apply Grows_stop]. Qed.

(** Decompose a program that does not touch the rows. *)
Ltac grows0 :=
  repeat match goal with
  | |- Grows _ (bind get _) => apply Grows_get; intros
  | |- Grows _ (bind _ _) => apply (Grows_bind 0 0); [|intros]
  | |- Grows _ (GoContext.select_done _ _ _) => apply Grows_select
  | |- Grows _ (ret _) => apply Grows_ret
  | |- Grows _ (stop _) => apply Grows_stop
  | |- Grows _ (log _) => apply Grows_log
  | |- Grows _ (sleep _) => apply Grows_sleep
  | |- Grows _ (on_writer _) => apply Grows_on_writer
  | |- Grows _ (http_error _ _) => apply Grows_on_writer
  | |- Grows _ fatal => apply Grows_fatal
  | |- Grows _ (if ?b then _ else _) => destruct b
  | |- Grows _ (match ?x with _ => _ end) => destruct x
  end.

Lemma Grows_GetApiCotacao up : Grows 0 (GetApiCotacao (D := D) up).
Proof. unfold GetApiCotacao. grows0. Qed.

Lemma Grows_AcessoApiCotacao ctx up : Grows 0 (AcessoApiCotacao (D := D) ctx up).
Proof. unfold AcessoApiCotacao. grows0; apply Grows_GetApiCotacao. Qed.

Lemma Grows_createTable f : Grows 0 (createTable (D := D) f).
Proof.
  intros s. unfold createTable.
  destruct (f_prepare_create f); [apply Grows_fatal|].
  destruct (f_exec_create f); [apply Grows_ret|].
  apply ev_create, ev_refl.
Qed.

Lemma Grows_set_db_insert q d' s :
  store_insert q (w_db s) = Some d' -> grows_by 1 s (snd (set_db d' s)).
Proof. intros E. eapply ev_insert; [exact E|constructor]. Qed.

Lemma Grows_insertCotacao f q : Grows 1 (insertCotacao (D := D) f q).
Proof.
  intros s. unfold insertCotacao, bind, get. cbn [fst snd].
  destruct (_ || _); [apply (Grows_weaken 0); [lia|apply Grows_fatal]|].
  destruct (f_exec_insert f); [apply (Grows_weaken 0); [lia|apply Grows_fatal]|].
  destruct (store_insert q (w_db s)) eqn:E;
    [by apply (Grows_set_db_insert q)|apply (Grows_weaken 0); [lia|apply Grows_fatal]].
Qed.

Lemma Grows_GravarDados c ctx f : Grows 1 (GravarDados (D := D) c ctx f).
Proof.
  unfold GravarDados. apply Grows_select; [apply (Grows_weaken 0); [lia|apply Grows_log]|].
  apply (Grows_bind 0 1); [apply Grows_createTable|intros _].
  apply (Grows_bind 1 0); [apply Grows_insertCotacao|intros _; apply Grows_log].
Qed.

(** One request adds at most one row, and never changes or removes
    one: the handler only appends. *)
Lemma Grows_cotacao env : Grows 1 (cotacao (D := D) env).
Proof.
  unfold cotacao. apply Grows_get; intros s.
  apply (Grows_bind 0 1); [apply Grows_sleep|intros _].
  apply (Grows_bind 0 1); [apply Grows_AcessoApiCotacao|intros [c err]].
  destruct err; [apply (Grows_weaken 0); [lia|grows0]|].
  destruct c as [c|]; cbv iota; [|apply (Grows_weaken 0); [lia|apply Grows_stop]].
  apply (Grows_bind 1 0); [apply Grows_GravarDados|intros _; grows0].
Qed.

(** The store changes of a whole request. *)
Lemma serve_evolves t env (db d' : D) :
  sv_proc (serve t env db) = Serving d' -> evolve 1 db d'.
Proof.
  unfold serve. pose proof (Grows_cotacao env (mk_world t db [] empty_writer)) as G.
  destruct (cotacao env _) as [[a|[|c]] s]; simpl in *; by intros [= <-].
Qed.

(** *** Runs of the handler

    What the fetch logs: a read error, a decoding error, success. *)
Definition fetch_log (rf : bool) (err : option Quote.decode_error) : list log_line :=
  (if rf then [LReadError] else [])
  ++ (match err with Some _ => [LParseError] | None => [] end) ++ [LApiOk].

Lemma GetApiCotacao_response lat body rf c (db : D) lg w :
  GetApiCotacao (UpResponse lat body rf) (mk_world c db lg w) =
  (Ok (Some (fst (Quote.unmarshal body Quote.zero_cotacao)), None),
   mk_world (c + lat) db (lg ++ fetch_log rf (snd (Quote.unmarshal body Quote.zero_cotacao))) w).
Proof.
  unfold GetApiCotacao, fetch_log.
  destruct (Quote.unmarshal body Quote.zero_cotacao) as [data err].
  destruct rf, err; cbn; by rewrite <- ?app_assoc.
Qed.

Lemma GetApiCotacao_transport c (db : D) lg w :
  GetApiCotacao UpTransportError (mk_world c db lg w) =
  (Halted Panicked, mk_world c db (lg ++ [LRequestError]) w).
Proof. reflexivity. Qed.

(** Settle the deadline tests from the hypotheses on the times. *)
Ltac deadlines :=
  repeat match goal with
  | |- context [GoContext.done_at (GoContext.with_timeout ?a ?b) ?n] =>
      first
        [ rewrite (proj2 (GoContext.with_timeout_not_done a b n))
            by (cbn [clock world_clock w_clock]; unfold GoContext.server_timeout in *; lia)
        | rewrite (proj2 (GoContext.with_timeout_done a b n))
            by (cbn [clock world_clock w_clock]; unfold GoContext.server_timeout in *; lia) ]
  end.

(** Run the handler as far as the hypotheses decide its branches. *)
Ltac run_handler :=
  unfold cotacao, AcessoApiCotacao, GravarDados, GoContext.select_done, insertCotacao,
    createTable, bind, get, ret, modify, stop, log, sleep, set_db, on_writer, fatal;
  repeat progress (
    cbn -[Quote.unmarshal JsonEncode.encode_string GoContext.done_at GoContext.with_timeout
          store_insert store_create store_has_table header_set write write_header
          GetApiCotacao http_error];
    deadlines;
    rewrite ?GetApiCotacao_response, ?GetApiCotacao_transport, ?create_has_table;
    repeat match goal with
    | Hs : store_insert ?q ?d = _ |- context [store_insert ?q ?d] => rewrite Hs
    end).

Definition fetched (body : bytes) : Quote.usdbrl :=
  Quote.Usdbrl (fst (Quote.unmarshal body Quote.zero_cotacao)).

(** The writer of a successful answer. *)
Definition ok_writer (bid : bytes) (w : writer) : writer :=
  write (JsonEncode.encode_string bid)
    (write_header 200 (header_set content_type (bs "application/json") w)).

Lemma cotacao_success t delay lat body rf (db d' : D) lg w :
  delay < GoContext.server_timeout -> delay + lat < GoContext.server_timeout ->
  store_insert (fetched body) (store_create db) = Some d' ->
  cotacao (mk_env delay (UpResponse lat body rf) no_faults) (mk_world t db lg w) =
  (Ok tt, mk_world (t + delay + lat) d'
     (lg ++ fetch_log rf (snd (Quote.unmarshal body Quote.zero_cotacao)) ++ [LPersistOk])
     (ok_writer (Quote.Bid (fetched body)) w)).
Proof. unfold fetched. intros ? ? ?. run_handler. by rewrite <- !app_assoc. Qed.

Lemma cotacao_insert_fails t delay lat body rf (db : D) lg w :
  delay < GoContext.server_timeout -> delay + lat < GoContext.server_timeout ->
  store_insert (fetched body) (store_create db) = None ->
  cotacao (mk_env delay (UpResponse lat body rf) no_faults) (mk_world t db lg w) =
  (Halted (Exited 1), mk_world (t + delay + lat) (store_create db)
     (lg ++ fetch_log rf (snd (Quote.unmarshal body Quote.zero_cotacao)) ++ [LFatal]) w).
Proof. unfold fetched. intros ? ? ?. run_handler. by rewrite <- !app_assoc. Qed.

Lemma cotacao_slow_upstream t delay lat body rf f (db : D) lg w :
  delay < GoContext.server_timeout <= delay + lat ->
  cotacao (mk_env delay (UpResponse lat body rf) f) (mk_world t db lg w) =
  (Ok tt, mk_world (t + delay + lat) db
     (lg ++ fetch_log rf (snd (Quote.unmarshal body Quote.zero_cotacao)) ++ [LPersistTimeout])
     (ok_writer (Quote.Bid (fetched body)) w)).
Proof. unfold fetched. intros ?. run_handler. by rewrite <- !app_assoc. Qed.

Lemma cotacao_precheck_expired t delay up f (db : D) lg w :
  GoContext.server_timeout <= delay ->
  cotacao (mk_env delay up f) (mk_world t db lg w) =
  http_error consume_error_msg 408
    (mk_world (t + delay) db (lg ++ [LApiTimeout; LConsumeError]) w).
Proof. intros ?. run_handler. by rewrite <- !app_assoc. Qed.

Lemma cotacao_transport_error t delay f (db : D) lg w :
  delay < GoContext.server_timeout ->
  cotacao (mk_env delay UpTransportError f) (mk_world t db lg w) =
  (Halted Panicked, mk_world (t + delay) db (lg ++ [LRequestError]) w).
Proof. intros ?. run_handler. reflexivity. Qed.

(** *** Requests *)

(** C1: a request whose upstream answers within the deadline, with
    no storage fault and an insert the engine accepts, is answered
    200 with [Content-Type: application/json] and the JSON encoding
    of the decoded bid, and stores exactly the decoded quote. *)
Theorem serve_success t delay lat body rf (db d' : D) :
  delay < GoContext.server_timeout -> delay + lat < GoContext.server_timeout ->
  store_insert (fetched body) (store_create db) = Some d' ->
  serve t (mk_env delay (UpResponse lat body rf) no_faults) db =
    mk_served (HttpResponse 200 {[content_type := bs "application/json"]}
                 (JsonEncode.encode_string (Quote.Bid (fetched body))))
      (Serving d')
      (fetch_log rf (snd (Quote.unmarshal body Quote.zero_cotacao)) ++ [LPersistOk])
      (t + delay + lat)
  /\ store_rows d' = store_rows db ++ [fetched body].
Proof.
  intros H1 H2 Hins. split.
  - unfold serve. by rewrite (cotacao_success _ _ _ _ _ _ d').
  - by rewrite (insert_rows _ _ _ Hins), create_rows.
Qed.

(** C2: when the upstream answers after the deadline (which
    [http.Get] does not enforce), the server still answers 200 with
    the bid; persistence is skipped and logged, the store is
    unchanged. *)
Theorem serve_slow_upstream t delay lat body rf f (db : D) :
  delay < GoContext.server_timeout <= delay + lat ->
  serve t (mk_env delay (UpResponse lat body rf) f) db =
    mk_served (HttpResponse 200 {[content_type := bs "application/json"]}
                 (JsonEncode.encode_string (Quote.Bid (fetched body))))
      (Serving db)
      (fetch_log rf (snd (Quote.unmarshal body Quote.zero_cotacao)) ++ [LPersistTimeout])
      (t + delay + lat).
Proof. intros Ht. unfold serve. by rewrite cotacao_slow_upstream. Qed.

Definition error_header : gmap bytes bytes :=
  <[bs "X-Content-Type-Options" := bs "nosniff"]>
    (<[content_type := bs "text/plain; charset=utf-8"]> (delete (bs "Content-Length") ∅)).

(** C3: when the deadline has passed at the check before the fetch,
    the answer is 408 with the plain-text body [Erro ao consumir API]
    and a newline, nothing is fetched and the store is unchanged. *)
Theorem serve_precheck_expired t delay up f (db : D) :
  GoContext.server_timeout <= delay ->
  serve t (mk_env delay up f) db =
    mk_served (HttpResponse 408 error_header (consume_error_msg ++ [x0a]))
      (Serving db) [LApiTimeout; LConsumeError] (t + delay).
Proof. intros Ht. unfold serve. by rewrite cotacao_precheck_expired. Qed.

(** C4: a transport error of the upstream call makes the handler
    panic on the nil response; the connection is closed without an
    answer (not 408), the process keeps serving, the store is
    unchanged. *)
Theorem serve_transport_error t delay f (db : D) :
  delay < GoContext.server_timeout ->
  serve t (mk_env delay UpTransportError f) db =
    mk_served ConnectionClosed (Serving db) [LRequestError] (t + delay).
Proof. intros Ht. unfold serve. by rewrite cotacao_transport_error. Qed.

(** C5: an insert the engine refuses (e.g. the rowids exhausted)
    terminates the server process ([log.Fatalln]). *)
Theorem serve_insert_fails_crashes t delay lat body rf (db : D) :
  delay < GoContext.server_timeout -> delay + lat < GoContext.server_timeout ->
  store_insert (fetched body) (store_create db) = None ->
  sv_outcome (serve t (mk_env delay (UpResponse lat body rf) no_faults) db) = ConnectionClosed
  /\ sv_proc (serve t (mk_env delay (UpResponse lat body rf) no_faults) db) = Crashed.
Proof. intros H1 H2 Hins. unfold serve. by rewrite cotacao_insert_fails. Qed.

(** C6: whatever the upstream, the timing and the storage faults, a
    request that leaves the process serving has appended at most one
    quote to the store and changed no stored quote. *)
Theorem serve_appends_at_most_one t env (db d' : D) :
  sv_proc (serve t env db) = Serving d' ->
  exists l, store_rows d' = store_rows db ++ l /\ (length l <= 1)%nat.
Proof. intros Hs. apply evolve_rows. by eapply serve_evolves. Qed.

Lemma reachable_evolves d0 p :
  reachable (Serving d0) p ->
  match p with Serving d => exists n, evolve n d0 d | Crashed => True end.
Proof.
  induction 1 as [|p p' _ IH Hstep]; [exists 0%nat; constructor|].
  inversion Hstep as [t env db Hp Hp']; subst.
  destruct (sv_proc (serve t env db)) as [d'|] eqn:E; [|done].
  destruct IH as [n Hn]. exists (n + 1)%nat.
  eapply evolve_trans; [exact Hn|]. by eapply serve_evolves.
Qed.


(** Any store invariant that both statements keep holds in every
    reachable state. *)
Lemma reachable_inv (P : D -> Prop) d0 d :
  (forall d, P d -> P (store_create d)) ->
  (forall q d d1, P d -> store_insert q d = Some d1 -> P d1) ->
  P d0 -> reachable (Serving d0) (Serving d) -> P d.
Proof.
  intros Hc Hi Hp0 Hr. destruct (reachable_evolves _ _ Hr) as [n Hn].
  by eapply evolve_inv.
Qed.

End Proofs.

End Server.
