(* ===== verification/Client.v ===== *)
(** * The quote client: [src/client/main.go]

  [main] (lines 13-55) makes one [GET http://localhost:8080] under a
  300 ms deadline context, checks the deadline again once the
  response is there, reads the whole body and writes
  [Dólar: <body>] to [cotacao.txt].  The client is a [prog] over
  [world]: the clock, the file system (a map from path to content)
  and the standard error stream.  The outside world is a
  [client_env]: how the server answered and when, the scheduling
  delay before the [select], how long the body takes to arrive, and
  the failures of [os.Create] and [WriteString]. *)

From S2P Require Import Prelude GoContext Server.

Open Scope Z_scope.

Module Client.

Inductive log_line :=
| LTimeout2          (* line 24: "Timeout máximo para acesso Server ultrapassado 2" *)
| LTimeout3          (* line 33: "... ultrapassado 3" *)
| LCtxErr            (* line 34: log.Println(ctx.Err()) *)
| LReadError         (* line 39: "Erro ao ler resposta" *)
| LCreateError       (* line 45: "Erro ao criar arquivo" *)
| LWriteError.       (* line 51: "Erro ao gravar arquivo" *)

Record world := mk_world {
  c_clock : Z; c_fs : gmap bytes bytes; c_log : list log_line }.

#[export] Instance world_clock : HasClock world := c_clock.

Record client_env := mk_cenv {
  ce_reply : Server.http_outcome;   (* what the server sent *)
  ce_latency : Z;                   (* time until the response headers *)
  ce_delay : Z;                     (* scheduling delay before the select *)
  ce_read_latency : Z;              (* time until the whole body is read *)
  ce_read_prefix : nat;             (* bytes read when the deadline cuts the read *)
  ce_create_fails : bool;
  ce_write_fails : bool }.

Definition file_name : bytes := bs "cotacao.txt".
Definition label : bytes := bs "Dólar: ".

Local Open Scope go_scope.

Definition log (l : log_line) : prog world unit :=
  modify (fun s => mk_world (c_clock s) (c_fs s) (c_log s ++ [l])).
Definition set_clock (t : Z) : prog world unit :=
  modify (fun s => mk_world t (c_fs s) (c_log s)).
Definition write_file (path content : bytes) : prog world unit :=
  modify (fun s => mk_world (c_clock s) (<[path := content]> (c_fs s)) (c_log s)).

(** [http.DefaultClient.Do(req)] with the deadline context: the
    response body, or an error (the connection closed without a
    response, or the deadline reached before the headers). *)
Definition Do (ctx : GoContext.ctx) (env : client_env) : prog world (option bytes) :=
  s <- get ;;
  let arrival := c_clock s + ce_latency env in
  match ce_reply env with
  | Server.HttpResponse _ _ body =>
      if GoContext.done_at ctx arrival
      then set_clock (GoContext.deadline ctx) ;; ret None
      else set_clock arrival ;; ret (Some body)
  | Server.ConnectionClosed =>
      set_clock (Z.min arrival (GoContext.deadline ctx)) ;; ret None
  end.

(** [io.ReadAll(res.Body)]: the body, or what was read when the
    deadline cut the read, with the error. *)
Definition ReadAll (ctx : GoContext.ctx) (env : client_env) (body : bytes)
    : prog world (bytes * bool) :=
  s <- get ;;
  let finish := c_clock s + ce_read_latency env in
  if GoContext.done_at ctx finish
  then set_clock (GoContext.deadline ctx) ;; ret (take (ce_read_prefix env) body, true)
  else set_clock finish ;; ret (body, false).

(** [main()]. *)
Definition main (env : client_env) : prog world unit :=
  s <- get ;;
  let ctx := GoContext.with_timeout (c_clock s) GoContext.client_timeout in
  (* http.NewRequestWithContext: the method and URL are constants and
     valid, so it returns no error *)
  res <- Do ctx env ;;
  match res with
  | None => log LTimeout2 ;; stop Panicked
  | Some body =>
      s1 <- get ;;
      set_clock (c_clock s1 + ce_delay env) ;;
      GoContext.select_done ctx
        (log LTimeout3 ;; log LCtxErr)
        (bind (ReadAll ctx env body) (fun '(resp, read_err) =>
         (if read_err then log LReadError else ret tt) ;;
         if ce_create_fails env
         then log LCreateError ;; log LWriteError    (* WriteString on a nil *os.File *)
         else write_file file_name [] ;;               (* os.Create truncates *)
              if ce_write_fails env then log LWriteError
              else write_file file_name (label ++ resp)))
  end.

(** ** Runs of [main] *)

Ltac deadlines :=
  repeat match goal with
  | |- context [GoContext.done_at (GoContext.with_timeout ?a ?b) ?n] =>
      first
        [ rewrite (proj2 (GoContext.with_timeout_not_done a b n))
            by (cbn [clock world_clock c_clock]; unfold GoContext.client_timeout in *; lia)
        | rewrite (proj2 (GoContext.with_timeout_done a b n))
            by (cbn [clock world_clock c_clock]; unfold GoContext.client_timeout in *; lia) ]
  end.

Ltac run_client :=
  unfold main, Do, ReadAll, GoContext.select_done, bind, get, ret, modify, stop, log,
    set_clock, write_file;
  repeat progress (cbn -[GoContext.done_at GoContext.with_timeout insert]; deadlines);
  cbv delta [modify] beta; cbn -[insert].

(** C8: a response whose headers and body arrive within the client's
    deadline is written, whatever its status, to [cotacao.txt] as
    [Dólar: ] followed by the raw body, replacing the old content. *)
Theorem main_writes_body t fs st hdr body lat delay rlat pre :
  lat + delay + rlat < GoContext.client_timeout -> lat + delay < GoContext.client_timeout ->
  lat < GoContext.client_timeout ->
  main (mk_cenv (Server.HttpResponse st hdr body) lat delay rlat pre false false)
       (mk_world t fs []) =
  (Ok tt, mk_world (t + lat + delay + rlat) (<[file_name := label ++ body]> fs) []).
Proof. intros ? ? ?. run_client. by rewrite insert_insert_eq. Qed.

(** C9: when the deadline has passed at the [select] after the
    response arrived, nothing is written: the client logs the timeout
    and the context error. *)
Theorem main_late_select t fs st hdr body lat delay rlat pre cf wf :
  lat < GoContext.client_timeout <= lat + delay ->
  main (mk_cenv (Server.HttpResponse st hdr body) lat delay rlat pre cf wf)
       (mk_world t fs []) =
  (Ok tt, mk_world (t + lat + delay) fs [LTimeout3; LCtxErr]).
Proof. intros ?. run_client. reflexivity. Qed.

(** C10: a connection closed without a response makes [Do] fail and
    the client panic; no file is written. *)
Theorem main_no_response t fs lat delay rlat pre cf wf :
  exists t', main (mk_cenv Server.ConnectionClosed lat delay rlat pre cf wf) (mk_world t fs []) =
             (Halted Panicked, mk_world t' fs [LTimeout2]).
Proof. eexists. run_client. reflexivity. Qed.

(** A body cut by the deadline is written as far as it was read. *)
Lemma main_read_cut t fs st hdr body lat delay rlat pre :
  lat < GoContext.client_timeout ->
  lat + delay < GoContext.client_timeout <= lat + delay + rlat ->
  main (mk_cenv (Server.HttpResponse st hdr body) lat delay rlat pre false false)
       (mk_world t fs []) =
  (Ok tt, mk_world (t + GoContext.client_timeout)
            (<[file_name := label ++ take pre body]> fs) [LReadError]).
Proof. intros ? ?. run_client. by rewrite insert_insert_eq. Qed.

End Client.
