(* ===== verification/System.v ===== *)
(** * The two programs together

  One run of the client against the server: the request reaches the
  server [se_net_req] ms after the client starts, the server serves
  it ([Server.serve]) with the SQLite store, and its reply reaches
  the client [se_net_resp] ms after the handler ends.  The theorems
  follow a quote from the upstream body to [cotacao.txt], and the
  store invariant of [Sqlite] over every sequence of requests. *)

From S2P Require Import Prelude GoContext JsonEncode Quote Store Sqlite Server Client.

Open Scope Z_scope.

Module System.

Record system_env := mk_senv {
  se_net_req : Z; se_net_resp : Z; se_request : Server.request_env;
  se_client_delay : Z; se_read_latency : Z; se_read_prefix : nat;
  se_create_fails : bool; se_write_fails : bool }.

(** The client's view of the server's reply. *)
Definition client_env_of (tc : Z) (se : system_env) (sv : Server.served Sqlite.db)
    : Client.client_env :=
  Client.mk_cenv (Server.sv_outcome sv) (Server.sv_end sv + se_net_resp se - tc)
    (se_client_delay se) (se_read_latency se) (se_read_prefix se)
    (se_create_fails se) (se_write_fails se).

(** The client starts at [tc] with file system [fs]; the server has
    store [db]. *)
Definition exchange (tc : Z) (se : system_env) (db : Sqlite.db) (fs : gmap bytes bytes)
    : Server.served Sqlite.db * (result unit * Client.world) :=
  let sv := Server.serve (tc + se_net_req se) (se_request se) db in
  (sv, Client.main (client_env_of tc se sv) (Client.mk_world tc fs [])).

(** The server process at startup, with a fresh database file. *)
Definition fresh_server : Server.proc Sqlite.db := Server.Serving Sqlite.empty_db.

(** [http.ListenAndServe] handling requests one after the other: each
  is [(arrival time, environment)]; an exited process serves none. *)
Fixpoint serve_all (reqs : list (Z * Server.request_env)) (p : Server.proc Sqlite.db)
  : Server.proc Sqlite.db :=
match reqs, p with
| [], _ => p
| (t, env) :: rest, Server.Serving db => serve_all rest (Server.sv_proc (Server.serve t env db))
| _ :: _, Server.Crashed => Server.Crashed
end.

(** The client's run once a response is on its way. *)
Lemma client_run_response tc se sv st hdr body fs :
  Server.sv_outcome sv = Server.HttpResponse st hdr body ->
  se_create_fails se = false -> se_write_fails se = false ->
  Server.sv_end sv + se_net_resp se - tc + se_client_delay se + se_read_latency se
    < GoContext.client_timeout ->
  Server.sv_end sv + se_net_resp se - tc + se_client_delay se < GoContext.client_timeout ->
  Server.sv_end sv + se_net_resp se - tc < GoContext.client_timeout ->
  Client.main (client_env_of tc se sv) (Client.mk_world tc fs []) =
  (Ok tt, Client.mk_world (tc + (Server.sv_end sv + se_net_resp se - tc) + se_client_delay se
                             + se_read_latency se)
            (<[Client.file_name := Client.label ++ body]> fs) []).
Proof.
  intros Ho Hc Hw T1 T2 T3. unfold client_env_of. rewrite Ho, Hc, Hw.
  set (lat := Server.sv_end sv + se_net_resp se - tc) in *.
  Client.run_client. by rewrite insert_insert_eq.
Qed.

(** A successful request on the SQLite store. *)
Lemma serve_success_run t delay lat body rf db d' :
  delay < GoContext.server_timeout -> delay + lat < GoContext.server_timeout ->
  Sqlite.insert (Server.fetched body) (Sqlite.create_table db) = Some d' ->
  Server.serve t (Server.mk_env delay (Server.UpResponse lat body rf) Server.no_faults) db
  = Server.mk_served
      (Server.HttpResponse 200 {[Server.content_type := bs "application/json"]}
         (JsonEncode.encode_string (Quote.Bid (Server.fetched body))))
      (Server.Serving d')
      (Server.fetch_log rf (snd (Quote.unmarshal body Quote.zero_cotacao)) ++ [Server.LPersistOk])
      (t + delay + lat).
Proof.
  intros H1 H2 Hins. unfold Server.serve.
  change (store_insert (Server.fetched body) (store_create db) = Some d') in Hins.
  by rewrite (Server.cotacao_success _ _ _ _ _ _ d').
Qed.

(** One successful exchange, in full. *)
Lemma exchange_success_run tc nreq nresp delay lat body rf cdelay rlat pre db d' fs :
  delay < GoContext.server_timeout -> delay + lat < GoContext.server_timeout ->
  Sqlite.insert (Server.fetched body) (Sqlite.create_table db) = Some d' ->
  nreq + delay + lat + nresp + cdelay + rlat < GoContext.client_timeout ->
  nreq + delay + lat + nresp + cdelay < GoContext.client_timeout ->
  nreq + delay + lat + nresp < GoContext.client_timeout ->
  exchange tc (mk_senv nreq nresp (Server.mk_env delay (Server.UpResponse lat body rf)
                                                 Server.no_faults) cdelay rlat pre false false) db fs
  = (Server.mk_served
       (Server.HttpResponse 200 {[Server.content_type := bs "application/json"]}
          (JsonEncode.encode_string (Quote.Bid (Server.fetched body))))
       (Server.Serving d')
       (Server.fetch_log rf (snd (Quote.unmarshal body Quote.zero_cotacao)) ++ [Server.LPersistOk])
       (tc + nreq + delay + lat),
     (Ok tt, Client.mk_world (tc + nreq + delay + lat + nresp + cdelay + rlat)
               (<[Client.file_name := Client.label ++
                    JsonEncode.encode_string (Quote.Bid (Server.fetched body))]> fs) [])).
Proof.
  intros H1 H2 Hins H3 H4 H5. unfold exchange. cbn [se_request se_net_req].
  rewrite (serve_success_run _ _ _ _ _ _ d') by done.
  rewrite (client_run_response _ _ _ 200 _ (JsonEncode.encode_string (Quote.Bid (Server.fetched body))))
    by (cbn; (done || lia)).
  do 3 f_equal. cbn. lia.
Qed.

(** C11: end to end.  When every hop is within its budget and the
    store accepts the row, the server stores the decoded quote and
    the client's [cotacao.txt] holds [Dólar: ] followed by the JSON
    encoding of the decoded bid, newline included. *)
Theorem exchange_delivers_bid tc nreq nresp delay lat body rf cdelay rlat pre db d' fs :
  delay < GoContext.server_timeout -> delay + lat < GoContext.server_timeout ->
  Sqlite.insert (Server.fetched body) (Sqlite.create_table db) = Some d' ->
  nreq + delay + lat + nresp + cdelay + rlat < GoContext.client_timeout ->
  nreq + delay + lat + nresp + cdelay < GoContext.client_timeout ->
  nreq + delay + lat + nresp < GoContext.client_timeout ->
  let '(sv, (r, cw)) :=
    exchange tc (mk_senv nreq nresp (Server.mk_env delay (Server.UpResponse lat body rf)
                                                   Server.no_faults) cdelay rlat pre false false) db fs in
  Server.sv_proc sv = Server.Serving d' /\ r = Ok tt /\
  Client.c_fs cw = <[Client.file_name := Client.label ++
                      JsonEncode.encode_string (Quote.Bid (Server.fetched body))]> fs /\
  Sqlite.contents d' = Sqlite.contents db ++ [Server.fetched body].
Proof.
  intros H1 H2 Hins H3 H4 H5. rewrite (exchange_success_run _ _ _ _ _ _ _ _ _ _ _ d') by done.
  split; [done|]. split; [done|]. split; [done|].
  change (store_insert (Server.fetched body) (store_create db) = Some d') in Hins.
  change (store_rows d' = store_rows db ++ [Server.fetched body]).
  by rewrite (insert_rows _ _ _ Hins), create_rows.
Qed.

(** The upstream body of the example of the specification. *)
Definition spec_body : bytes :=
  bs "{" ++ quoted "USDBRL" ++ bs ":{" ++ quoted "code" ++ bs ":" ++ quoted "USD" ++ bs ","
  ++ quoted "codein" ++ bs ":" ++ quoted "BRL" ++ bs "," ++ quoted "bid" ++ bs ":"
  ++ quoted "5.43" ++ bs "," ++ quoted "ask" ++ bs ":" ++ quoted "5.44" ++ bs "}}".

Definition spec_row : Sqlite.db :=
  Eval vm_compute in
    match Sqlite.insert (Server.fetched spec_body) (Sqlite.create_table Sqlite.empty_db) with
    | Some d => d | None => Sqlite.empty_db end.

(** C12: the example of the specification, on a fresh store.  The
    file holds [Dólar: "5.43"] followed by the newline that
    [Encoder.Encode] appends. *)
Theorem spec_example_file tc nreq nresp delay lat rf cdelay rlat pre fs :
  delay < GoContext.server_timeout -> delay + lat < GoContext.server_timeout ->
  nreq + delay + lat + nresp + cdelay + rlat < GoContext.client_timeout ->
  nreq + delay + lat + nresp + cdelay < GoContext.client_timeout ->
  nreq + delay + lat + nresp < GoContext.client_timeout ->
  Client.c_fs (snd (snd (exchange tc
    (mk_senv nreq nresp (Server.mk_env delay (Server.UpResponse lat spec_body rf) Server.no_faults)
             cdelay rlat pre false false) Sqlite.empty_db fs))) !! Client.file_name
  = Some (bs "Dólar: " ++ quoted "5.43" ++ [x0a]).
Proof.
  intros H1 H2 H3 H4 H5.
  rewrite (exchange_success_run _ _ _ _ _ _ _ _ _ _ _ spec_row) by (done || lia).
  cbn [snd Client.c_fs]. rewrite lookup_insert_eq. f_equal.
Qed.

(** C13: an expired deadline before the upstream fetch makes the
    server answer 408; the client, which never looks at the status,
    writes the error text to [cotacao.txt] as if it were the quote. *)
Theorem exchange_error_body_written tc nreq nresp delay up f cdelay rlat pre fs :
  GoContext.server_timeout <= delay ->
  nreq + delay + nresp + cdelay + rlat < GoContext.client_timeout ->
  nreq + delay + nresp + cdelay < GoContext.client_timeout ->
  nreq + delay + nresp < GoContext.client_timeout ->
  Client.c_fs (snd (snd (exchange tc
    (mk_senv nreq nresp (Server.mk_env delay up f) cdelay rlat pre false false) Sqlite.empty_db fs)))
  = <[Client.file_name := Client.label ++ bs "Erro ao consumir API" ++ [x0a]]> fs.
Proof.
  intros H1 H2 H3 H4. unfold exchange. cbn [se_request se_net_req].
  assert (Server.sv_outcome (Server.serve (tc + nreq) (Server.mk_env delay up f) Sqlite.empty_db)
          = Server.HttpResponse 408 Server.error_header (Server.consume_error_msg ++ [x0a])
          /\ Server.sv_end (Server.serve (tc + nreq) (Server.mk_env delay up f) Sqlite.empty_db)
             = tc + nreq + delay) as [Ho He].
  { unfold Server.serve. by rewrite (Server.cotacao_precheck_expired (D := Sqlite.db)). }
  rewrite (client_run_response _ _ _ _ _ _ _ Ho) by (cbn; rewrite ?He; (done || lia)).
  reflexivity.
Qed.

(** Every state [serve_all] passes through is reachable. *)
Lemma serve_all_reachable reqs p0 p :
Server.reachable p0 p -> Server.reachable p0 (serve_all reqs p).
Proof.
revert p. induction reqs as [|[t env] reqs IH]; intros p Hr; [done|].
destruct p as [db|]; simpl; [|by destruct reqs].
apply IH. eapply Server.reach_step; [exact Hr|constructor].
Qed.

(** C14: whatever requests the server handles from a fresh database,
  the SQLite table invariant holds while it serves: identifiers
  strictly increase, are positive and are bounded by the sequence. *)
Theorem serve_all_wf reqs :
match serve_all reqs fresh_server with Server.Serving d => Sqlite.wf d | Server.Crashed => True end.
Proof.
destruct (serve_all reqs fresh_server) as [d|] eqn:E; [|done].
apply (Server.reachable_inv Sqlite.wf Sqlite.empty_db);
  [exact Sqlite.wf_create_table|exact Sqlite.wf_insert|done|].
rewrite <- E. apply serve_all_reachable, Server.reach_init.
Qed.

(** C15: two requests served one after the other from a fresh
  database, both within the deadline, store two rows with
  identifiers 1 and 2, in order, and the sequence ends at 2. *)
Theorem two_requests_two_rows t1 t2 delay1 lat1 body1 rf1 delay2 lat2 body2 rf2 :
delay1 < GoContext.server_timeout -> delay1 + lat1 < GoContext.server_timeout ->
delay2 < GoContext.server_timeout -> delay2 + lat2 < GoContext.server_timeout ->
serve_all [(t1, Server.mk_env delay1 (Server.UpResponse lat1 body1 rf1) Server.no_faults);
           (t2, Server.mk_env delay2 (Server.UpResponse lat2 body2 rf2) Server.no_faults)]
  fresh_server
= Server.Serving (Sqlite.mk_db (Some (Sqlite.mk_table
    [(1, Server.fetched body1); (2, Server.fetched body2)] 2))).
Proof.
intros H1 H2 H3 H4. unfold fresh_server. cbn [serve_all].
rewrite (serve_success_run _ _ _ _ _ _ (Sqlite.mk_db (Some (Sqlite.mk_table
           [(1, Server.fetched body1)] 1)))) by done.
cbn [Server.sv_proc serve_all].
by rewrite (serve_success_run _ _ _ _ _ _ (Sqlite.mk_db (Some (Sqlite.mk_table
           [(1, Server.fetched body1); (2, Server.fetched body2)] 2)))).
Qed.

End System.
