(* ===== verification/Witnesses.v ===== *)
(** * Witnesses: the theorems applied at concrete inputs

  Each lemma here instantiates one theorem of the development at a
  concrete request, store, body or timing for which its hypotheses
  hold, and discharges them by computation.  The upstream body is
  the specification's example ([System.spec_body]); [full_db] is a
  store whose sequence has reached the largest 64-bit rowid. *)

From S2P Require Import Prelude GoContext Utf8 JsonEncode JsonDecode Quote Store Sqlite Server Client System.

Open Scope Z_scope.

Ltac budget := unfold GoContext.server_timeout, GoContext.client_timeout; lia.

Definition env_ok : Server.request_env :=
Server.mk_env 5 (Server.UpResponse 50 System.spec_body false) Server.no_faults.

Definition full_db : Sqlite.db :=
Sqlite.mk_db (Some (Sqlite.mk_table [] Sqlite.max_rowid)).

(** The body the upstream sends for an unknown pair. *)
Definition error_body : bytes :=
bs "{" ++ quoted "status" ++ bs ":404," ++ quoted "code" ++ bs ":" ++ quoted "CoinNotExists"
++ bs "," ++ quoted "message" ++ bs ":" ++ quoted "moeda nao encontrada USD-BRL" ++ bs "}".

Lemma serve_success_witness :
Server.serve 0 env_ok Sqlite.empty_db =
  Server.mk_served
    (Server.HttpResponse 200 {[Server.content_type := bs "application/json"]}
       (JsonEncode.encode_string (Quote.Bid (Server.fetched System.spec_body))))
    (Server.Serving System.spec_row)
    (Server.fetch_log false (snd (Quote.unmarshal System.spec_body Quote.zero_cotacao))
       ++ [Server.LPersistOk])
    (0 + 5 + 50)
/\ store_rows System.spec_row = store_rows Sqlite.empty_db ++ [Server.fetched System.spec_body].
Proof. apply (Server.serve_success (D := Sqlite.db)); [budget|budget|vm_compute; reflexivity]. Defined.

Lemma serve_slow_upstream_witness :
Server.serve 0 (Server.mk_env 5 (Server.UpResponse 300 System.spec_body false) Server.no_faults)
  Sqlite.empty_db =
Server.mk_served
  (Server.HttpResponse 200 {[Server.content_type := bs "application/json"]}
     (JsonEncode.encode_string (Quote.Bid (Server.fetched System.spec_body))))
  (Server.Serving Sqlite.empty_db)
  (Server.fetch_log false (snd (Quote.unmarshal System.spec_body Quote.zero_cotacao))
     ++ [Server.LPersistTimeout])
  (0 + 5 + 300).
Proof. apply (Server.serve_slow_upstream (D := Sqlite.db)). budget. Defined.

Lemma serve_precheck_expired_witness :
Server.serve 0 (Server.mk_env 250 Server.UpTransportError Server.no_faults) Sqlite.empty_db =
Server.mk_served (Server.HttpResponse 408 Server.error_header (Server.consume_error_msg ++ [x0a]))
  (Server.Serving Sqlite.empty_db) [Server.LApiTimeout; Server.LConsumeError] (0 + 250).
Proof. apply (Server.serve_precheck_expired (D := Sqlite.db)). budget. Defined.

Lemma serve_transport_error_witness :
Server.serve 0 (Server.mk_env 5 Server.UpTransportError Server.no_faults) Sqlite.empty_db =
Server.mk_served Server.ConnectionClosed (Server.Serving Sqlite.empty_db)
  [Server.LRequestError] (0 + 5).
Proof. apply (Server.serve_transport_error (D := Sqlite.db)). budget. Defined.

Lemma serve_insert_fails_crashes_witness :
Server.sv_outcome (Server.serve 0 env_ok full_db) = Server.ConnectionClosed
/\ Server.sv_proc (Server.serve 0 env_ok full_db) = Server.Crashed.
Proof. apply (Server.serve_insert_fails_crashes (D := Sqlite.db)); [budget|budget|vm_compute; reflexivity]. Defined.

Lemma serve_appends_at_most_one_witness :
exists l, store_rows System.spec_row = store_rows Sqlite.empty_db ++ l /\ (length l <= 1)%nat.
Proof. apply (Server.serve_appends_at_most_one 0 env_ok). vm_compute. reflexivity. Defined.


Lemma main_writes_body_witness :
Client.main (Client.mk_cenv (Server.HttpResponse 200 ∅ (bs "x")) 10 0 5 0 false false)
  (Client.mk_world 0 ∅ []) =
(Ok tt, Client.mk_world (0 + 10 + 0 + 5) (<[Client.file_name := Client.label ++ bs "x"]> ∅) []).
Proof. apply Client.main_writes_body; budget. Defined.

Lemma main_late_select_witness :
Client.main (Client.mk_cenv (Server.HttpResponse 200 ∅ (bs "x")) 10 300 5 0 false false)
  (Client.mk_world 0 ∅ []) =
(Ok tt, Client.mk_world (0 + 10 + 300) ∅ [Client.LTimeout3; Client.LCtxErr]).
Proof. apply Client.main_late_select. budget. Defined.

Lemma exchange_delivers_bid_witness :
let '(sv, (r, cw)) :=
  System.exchange 0 (System.mk_senv 3 3 env_ok 1 2 0 false false) Sqlite.empty_db ∅ in
Server.sv_proc sv = Server.Serving System.spec_row /\ r = Ok tt /\
Client.c_fs cw = <[Client.file_name := Client.label ++
                    JsonEncode.encode_string (Quote.Bid (Server.fetched System.spec_body))]> ∅ /\
Sqlite.contents System.spec_row = Sqlite.contents Sqlite.empty_db ++ [Server.fetched System.spec_body].
Proof.
apply (System.exchange_delivers_bid 0 3 3 5 50 System.spec_body false 1 2 0 Sqlite.empty_db
         System.spec_row ∅); [budget|budget|vm_compute; reflexivity|budget|budget|budget].
Defined.

Lemma spec_example_file_witness :
Client.c_fs (snd (snd (System.exchange 0 (System.mk_senv 3 3 env_ok 1 2 0 false false)
                         Sqlite.empty_db ∅))) !! Client.file_name
= Some (bs "Dólar: " ++ quoted "5.43" ++ [x0a]).
Proof. apply System.spec_example_file; budget. Defined.

Lemma exchange_error_body_written_witness :
Client.c_fs (snd (snd (System.exchange 0
  (System.mk_senv 3 3 (Server.mk_env 250 Server.UpTransportError Server.no_faults) 1 2 0 false false)
  Sqlite.empty_db ∅)))
= <[Client.file_name := Client.label ++ bs "Erro ao consumir API" ++ [x0a]]> ∅.
Proof. apply System.exchange_error_body_written; budget. Defined.

Lemma two_requests_two_rows_witness :
System.serve_all [(0, env_ok); (100, env_ok)] System.fresh_server
= Server.Serving (Sqlite.mk_db (Some (Sqlite.mk_table
    [(1, Server.fetched System.spec_body); (2, Server.fetched System.spec_body)] 2))).
Proof. apply System.two_requests_two_rows; budget. Defined.

Lemma encode_string_safe_witness :
JsonEncode.encode_string (bs "5.4321") = [x22] ++ bs "5.4321" ++ [x22; x0a].
Proof. apply JsonEncode.encode_string_safe. reflexivity. Defined.

Definition one_row : Sqlite.table := Sqlite.mk_table [(1, Quote.zero_usdbrl)] 1.

Lemma insert_fresh_id_witness :
Sqlite.cotacao (Sqlite.mk_db (Some (Sqlite.mk_table [(1, Quote.zero_usdbrl); (2, Quote.zero_usdbrl)] 2)))
  = Some (Sqlite.mk_table (Sqlite.rows one_row ++ [(Sqlite.seq one_row + 1, Quote.zero_usdbrl)])
                          (Sqlite.seq one_row + 1))
/\ Forall (fun old => old < Sqlite.seq one_row + 1) (map fst (Sqlite.rows one_row)).
Proof.
apply (Sqlite.insert_fresh_id Quote.zero_usdbrl (Sqlite.mk_db (Some one_row))).
- unfold Sqlite.wf, Sqlite.wf_table. simpl.
  split; [repeat constructor|split; [repeat constructor; lia|unfold Sqlite.max_rowid; lia]].
- reflexivity.
- vm_compute. reflexivity.
Defined.

Lemma insert_full_witness :
Sqlite.insert Quote.zero_usdbrl full_db = None <-> Sqlite.seq (Sqlite.mk_table [] Sqlite.max_rowid) = Sqlite.max_rowid.
Proof.
apply Sqlite.insert_full.
- unfold Sqlite.wf, Sqlite.wf_table. simpl.
  split; [constructor|split; [constructor|unfold Sqlite.max_rowid; lia]].
- reflexivity.
Defined.

Lemma unmarshal_without_usdbrl_witness :
Quote.unmarshal error_body Quote.zero_cotacao = (Quote.zero_cotacao, None).
Proof.
eapply Quote.unmarshal_without_usdbrl.
- vm_compute. reflexivity.
- repeat constructor.
Defined.

(** The two bytes of the letter of [Dólar]. *)
Definition o_acute : bytes := bs "ó".

Lemma utf8_roundtrip_witness :
(0xF3 <= Utf8.max_rune /\ Utf8.is_surrogate 0xF3 = false
 /\ Utf8.decode_rune (Utf8.encode_rune 0xF3) = (0xF3, length (Utf8.encode_rune 0xF3)))%N
/\ (Utf8.decoded_ok (Utf8.decode_rune o_acute) = true
 /\ Utf8.encode_rune (fst (Utf8.decode_rune o_acute)) = take (snd (Utf8.decode_rune o_acute)) o_acute).
Proof.
split; split_and!.
- unfold Utf8.max_rune. lia.
- reflexivity.
- apply (proj1 Utf8.utf8_roundtrip); [unfold Utf8.max_rune; lia | reflexivity].
- vm_compute. reflexivity.
- apply (proj2 Utf8.utf8_roundtrip). vm_compute. reflexivity.
Defined.

(** A bid with a non-ASCII letter and the characters the encoder
    escapes for HTML. *)
Definition html_bid : bytes := bs "Dólar <5,43> & R$".

Lemma parse_encode_valid_witness :
Utf8.valid html_bid = true
/\ JsonDecode.parse (JsonEncode.encode_string html_bid) = Some (JsonDecode.JString html_bid).
Proof.
assert (H : Utf8.valid html_bid = true) by (vm_compute; reflexivity).
split; [exact H|]. exact (JsonRoundtrip.parse_encode_valid html_bid H).
Defined.
